(** * electron-win-state: the WinState class of src/index.ts

    A shallow embedding of the class [WinState] (constructor, [getState],
    [saveState], [changeFrame], [reset], [manage], [unmanage],
    [changeHandler], [closeHandler], [isNormal], [winOptions] and the
    accessors) together with the three collaborators it talks to: the
    key-value store, the window's event emitter and queries, and the
    timers behind [debounce]. *)

From stdpp Require Import base option list gmap strings.
From Stdlib Require Import ZArith Lia.

Local Open Scope Z_scope.
Local Open Scope string_scope.

(** ** JavaScript values and objects *)

(** The values that occur in the state record and in the store. *)
Inductive value : Type :=
  | VUndefined
  | VBool (b : bool)
  | VNum (n : Z).

#[global] Instance value_eq_dec : EqDecision value.
Proof. solve_decision. Defined.

(** A plain object: own enumerable string keys. *)
Abbreviation obj := (gmap string value).

(** Property read [o.k]: a missing key reads as [undefined]. *)
Definition prop (o : obj) (k : string) : value := default VUndefined (o !! k).

(** A number, or a boolean, that may be undefined. *)
Definition num_value (z : option Z) : value :=
  match z with Some n => VNum n | None => VUndefined end.
Definition bool_value (b : option bool) : value :=
  match b with Some b => VBool b | None => VUndefined end.

(** The record holds a value JSON cannot carry. *)
Definition holds_undefined (o : obj) : bool :=
  bool_decide (map_Exists (fun _ v => v = VUndefined) o).

(** One source of [Object.assign]: every own key of [src] is set on the
    target, in turn. *)
Definition assign1 (target src : obj) : obj :=
  map_fold (fun k v acc => <[k := v]> acc) target src.

(** [Object.assign(target, ...sources)]: sources are copied left to right. *)
Definition Object_assign (target : obj) (sources : list obj) : obj :=
  foldl assign1 target sources.

(** [...(c && o)] inside an object literal: spreading [false] adds nothing. *)
Definition spread_and (c : bool) (o : obj) : obj := if c then o else ∅.

(** ** Options *)

(** A key of the options object the caller passes: missing, present with
    the value [undefined], or present with a value. [Object.assign] skips
    the first and copies the other two. *)
Inductive field (A : Type) : Type :=
  | Absent
  | Undefined
  | Given (a : A).
Arguments Absent {A}.
Arguments Undefined {A}.
Arguments Given {A} a.

(** [f !== undefined]. *)
Definition is_given {A} (f : field A) : bool :=
  match f with Given _ => true | _ => false end.

(** Modelled from the spec: the declarations of ./types (Options,
    FinalOptions, State) are not among the sources; the fields and their
    types follow section 3 of the specification. *)
Record Options : Type := mkOptions {
  o_defaultWidth : field Z;
  o_defaultHeight : field Z;
  o_defaultFrame : field bool;
  o_storeFrameOption : field bool;
  o_dev : field bool;
  o_debounce : field nat;
  o_addMethods : field bool
}.

(** The resolved options, as the class reads them. The three defaults are
    handed on as values and may be undefined ([None]). [storeFrameOption],
    [dev] and [addMethods] are only ever tested for truth, and [debounce]
    is only handed to the [debounce] package: they are kept as the flag
    and the delay the code acts on. *)
Record FinalOptions : Type := mkFinalOptions {
  defaultWidth : option Z;
  defaultHeight : option Z;
  defaultFrame : option bool;
  storeFrameOption : bool;
  dev : bool;
  debounce : nat;
  addMethods : bool
}.

(** [defaultOptions] of the constructor; [storeFrameOption] is
    [options.defaultFrame !== undefined || false]. *)
Definition defaultOptions (options : Options) : FinalOptions :=
  {| defaultWidth := Some 600;
     defaultHeight := Some 800;
     defaultFrame := Some true;
     storeFrameOption := is_given (o_defaultFrame options) || false;
     dev := false;
     debounce := 500;
     addMethods := true |}.

(** One key of [Object.assign({}, defaultOptions, options)], for a key
    that is read as a value: a key present in [options] wins, also when
    its value is undefined. *)
Definition assign_field {A} (d : option A) (f : field A) : option A :=
  match f with
  | Absent => d
  | Undefined => None
  | Given a => Some a
  end.

(** The same for a key that is only tested for truth: undefined is
    falsy. *)
Definition assign_flag (d : bool) (f : field bool) : bool :=
  match f with
  | Absent => d
  | Undefined => false
  | Given b => b
  end.

(** Modelled from the spec: [debounce] is the package of that name, not
    among the sources; handed an undefined delay it waits its own default
    of 100 ms. *)
Definition assign_wait (d : nat) (f : field nat) : nat :=
  match f with
  | Absent => d
  | Undefined => 100
  | Given n => n
  end.

(** [Object.assign({}, defaultOptions, options)]. *)
Definition resolve (options : Options) : FinalOptions :=
  let d := defaultOptions options in
  {| defaultWidth := assign_field (defaultWidth d) (o_defaultWidth options);
     defaultHeight := assign_field (defaultHeight d) (o_defaultHeight options);
     defaultFrame := assign_field (defaultFrame d) (o_defaultFrame options);
     storeFrameOption := assign_flag (storeFrameOption d) (o_storeFrameOption options);
     dev := assign_flag (dev d) (o_dev options);
     debounce := assign_wait (debounce d) (o_debounce options);
     addMethods := assign_flag (addMethods d) (o_addMethods options) |}.

(** ** The world outside the instance *)

(** Result of [getBounds()]. *)
Record Rectangle : Type := mkRect {
  r_x : Z; r_y : Z; r_width : Z; r_height : Z
}.

(** A call either returns or throws. *)
Inductive res (A : Type) : Type :=
  | Ok (a : A)
  | Throw (e : string).
Arguments Ok {A} a.
Arguments Throw {A} e.

(** What a window answers to the three queries of [changeHandler]; each
    may throw (the window was destroyed meanwhile). *)
Record WinView : Type := mkView {
  v_bounds : res Rectangle;
  v_minimized : res bool;
  v_fullScreen : res bool
}.

(** The two arrow functions the class hands out. *)
Inductive Arrow : Type :=
  | CallChangeHandler   (* () => this.changeHandler() *)
  | CallCloseHandler.   (* () => this.closeHandler() *)

(** A function object: its identity (allocation number), and whether it is
    a bare arrow function or the wrapper returned by [debounce(f, wait)]. *)
Inductive Fn : Type :=
  | Plain (id : nat) (body : Arrow)
  | Debounced (id : nat) (body : Arrow) (wait : nat).

Definition fn_id (f : Fn) : nat :=
  match f with Plain i _ => i | Debounced i _ _ => i end.

(** A listener registered with [win.on(ev, f)]. *)
Record Registration : Type := mkReg {
  reg_win : nat; reg_event : string; reg_fn : Fn
}.

(** What the collaborators observe, oldest first. *)
Inductive Effect : Type :=
  | EStoreSet (o : obj)                       (* store.set(o) *)
  | EStoreClear                               (* store.clear() *)
  | EListener (w : nat) (ev : string) (id : nat)  (* a listener of w is called *)
  | ETimer (id : nat).                        (* the timer of a debounced function fires *)

Record World : Type := mkWorld {
  store : obj;                    (* contents of the key-value store *)
  views : gmap nat WinView;       (* live windows; a missing window throws *)
  listeners : list Registration;  (* registrations, oldest first *)
  methods : list nat;             (* windows carrying the three added methods *)
  next_fn : nat;                  (* next function identity *)
  now : nat;                      (* clock, in milliseconds *)
  timers : list (Fn * nat);       (* pending debounced functions with deadline *)
  log : list Effect
}.

(** ** The instance *)

Record WinState : Type := mkWinState {
  opts : FinalOptions;
  state : obj;
  win : option nat
}.

Record Sys : Type := mkSys { this : WinState; world : World }.

(** ** Computations: state passing with exceptions

    A thrown exception keeps the mutations made before it. *)
Definition M (A : Type) : Type := Sys -> res A * Sys.

Definition ret {A} (a : A) : M A := fun s => (Ok a, s).

Definition bind {A B} (m : M A) (k : A -> M B) : M B :=
  fun s => match m s with
           | (Ok a, s') => k a s'
           | (Throw e, s') => (Throw e, s')
           end.

Definition throw {A} (e : string) : M A := fun s => (Throw e, s).

(** [try { m } catch (err) { h }]. *)
Definition try_catch {A} (m : M A) (h : string -> M A) : M A :=
  fun s => match m s with
           | (Ok a, s') => (Ok a, s')
           | (Throw e, s') => h e s'
           end.

Declare Scope js_scope.
Delimit Scope js_scope with js.
Notation "'let*' x := m 'in' k" := (bind m (fun x => k))
  (at level 10, x name, m at level 100, k at level 200) : js_scope.
Notation "m ;; k" := (bind m (fun _ => k))
  (at level 100, k at level 200, right associativity) : js_scope.
Local Open Scope js_scope.

Definition gets {A} (f : Sys -> A) : M A := fun s => (Ok (f s), s).
Definition modify_this (f : WinState -> WinState) : M unit :=
  fun s => (Ok tt, {| this := f (this s); world := world s |}).
Definition modify_world (f : World -> World) : M unit :=
  fun s => (Ok tt, {| this := this s; world := f (world s) |}).

(** Final system of a computation, whatever its outcome. *)
Definition exec {A} (m : M A) (s : Sys) : Sys := snd (m s).
Definition outcome {A} (m : M A) (s : Sys) : res A := fst (m s).

(** [forEach]: run [f] on the elements in order; a throw stops the loop. *)
Fixpoint for_each {A} (f : A -> M unit) (l : list A) : M unit :=
  match l with
  | [] => ret tt
  | a :: l' => f a ;; for_each f l'
  end.

(** *** Field updates *)

Definition set_state (st : obj) (t : WinState) : WinState :=
  {| opts := opts t; state := st; win := win t |}.
Definition set_win (w : option nat) (t : WinState) : WinState :=
  {| opts := opts t; state := state t; win := w |}.

Definition set_store (o : obj) (w : World) : World :=
  {| store := o; views := views w; listeners := listeners w; methods := methods w;
     next_fn := next_fn w; now := now w; timers := timers w; log := log w |}.
Definition set_views (v : gmap nat WinView) (w : World) : World :=
  {| store := store w; views := v; listeners := listeners w; methods := methods w;
     next_fn := next_fn w; now := now w; timers := timers w; log := log w |}.
Definition set_listeners (l : list Registration) (w : World) : World :=
  {| store := store w; views := views w; listeners := l; methods := methods w;
     next_fn := next_fn w; now := now w; timers := timers w; log := log w |}.
Definition set_methods (l : list nat) (w : World) : World :=
  {| store := store w; views := views w; listeners := listeners w; methods := l;
     next_fn := next_fn w; now := now w; timers := timers w; log := log w |}.
Definition set_next_fn (n : nat) (w : World) : World :=
  {| store := store w; views := views w; listeners := listeners w; methods := methods w;
     next_fn := n; now := now w; timers := timers w; log := log w |}.
Definition set_now (n : nat) (w : World) : World :=
  {| store := store w; views := views w; listeners := listeners w; methods := methods w;
     next_fn := next_fn w; now := n; timers := timers w; log := log w |}.
Definition set_timers (l : list (Fn * nat)) (w : World) : World :=
  {| store := store w; views := views w; listeners := listeners w; methods := methods w;
     next_fn := next_fn w; now := now w; timers := l; log := log w |}.
Definition add_log (e : Effect) (w : World) : World :=
  {| store := store w; views := views w; listeners := listeners w; methods := methods w;
     next_fn := next_fn w; now := now w; timers := timers w; log := log w ++ [e] |}.

(** ** The key-value store (electron-store): [store], [set], [clear] *)

(** Modelled from the spec: the store is the electron-store package, not
    among the sources (section 6: read, set, clear). [this.store.store]
    reads the whole contents. *)
Definition store_read : M obj := gets (fun s => store (world s)).

Definition type_error : string := "TypeError".

(** Modelled from the spec: the store is the electron-store package, not
    among the sources (section 6: set overwrites the keys given; section
    7: a write can fail). [this.store.set(o)] writes every key of [o] and
    keeps the others; a record that holds an undefined value is refused:
    the call throws a TypeError and nothing is written. *)
Definition store_set (o : obj) : M unit :=
  fun s =>
    if holds_undefined o then (Throw type_error, s)
    else modify_world
           (fun w => add_log (EStoreSet o) (set_store (assign1 (store w) o) w)) s.

(** Modelled from the spec: the store is the electron-store package, not
    among the sources (section 6). [this.store.clear()] removes every
    key. *)
Definition store_clear : M unit :=
  modify_world (fun w => add_log EStoreClear (set_store ∅ w)).

(** ** The window: queries, mutator, event emitter *)

Definition destroyed : string := "Object has been destroyed".

Definition query {A} (f : WinView -> res A) (w : nat) : M A :=
  fun s => match views (world s) !! w with
           | Some v => (f v, s)
           | None => (Throw destroyed, s)
           end.

Definition getBounds : nat -> M Rectangle := query v_bounds.
Definition isMinimized : nat -> M bool := query v_minimized.
Definition isFullScreen : nat -> M bool := query v_fullScreen.

(** [win.setSize(width, height)]; an undefined argument is refused with a
    TypeError. *)
Definition setSize (w : nat) (width height : option Z) : M unit :=
  fun s => match views (world s) !! w with
           | Some v =>
               match v_bounds v, width, height with
               | Ok b, Some width, Some height =>
                   let v' := {| v_bounds := Ok (mkRect (r_x b) (r_y b) width height);
                                v_minimized := v_minimized v;
                                v_fullScreen := v_fullScreen v |} in
                   (Ok tt, {| this := this s;
                              world := set_views (<[w := v']> (views (world s))) (world s) |})
               | Throw e, _, _ => (Throw e, s)
               | _, _, _ => (Throw type_error, s)
               end
           | None => (Throw destroyed, s)
           end.

(** A fresh function object gets the next identity. *)
Definition fresh_id : M nat :=
  fun s => (Ok (next_fn (world s)),
            {| this := this s; world := set_next_fn (S (next_fn (world s))) (world s) |}).

(** [() => ...]. *)
Definition arrow (a : Arrow) : M Fn :=
  let* i := fresh_id in ret (Plain i a).

(** [win.on(ev, f)]. *)
Definition on (w : nat) (ev : string) (f : Fn) : M unit :=
  modify_world (fun wd => set_listeners (listeners wd ++ [mkReg w ev f]) wd).

(** Does a registration match [(w, ev, f)], [f] compared by identity? *)
Definition same_listener (w : nat) (ev : string) (f : Fn) (r : Registration) : bool :=
  bool_decide (reg_win r = w) && bool_decide (reg_event r = ev)
  && bool_decide (fn_id (reg_fn r) = fn_id f).

(** Drop the first element that satisfies [p]. *)
Fixpoint remove_first {A} (p : A -> bool) (l : list A) : list A :=
  match l with
  | [] => []
  | a :: l' => if p a then l' else a :: remove_first p l'
  end.

(** [win.removeListener(ev, f)]: the most recently added registration of
    this very function object is removed, if there is one. *)
Definition removeListener (w : nat) (ev : string) (f : Fn) : M unit :=
  modify_world (fun wd =>
    set_listeners (reverse (remove_first (same_listener w ev f) (reverse (listeners wd)))) wd).

(** The listeners of [w] for [ev], in registration order. *)
Definition listeners_of (w : nat) (ev : string) (wd : World) : list Registration :=
  filter (fun r => reg_win r = w /\ reg_event r = ev) (listeners wd).

(** ** The class *)

(** [getState()]. *)
Definition getState : M obj :=
  let* stored := store_read in
  let* o := gets (fun s => opts (this s)) in
  let defaults :=
    Object_assign ∅
      [ {[ "width" := num_value (defaultWidth o) ]};
        {[ "height" := num_value (defaultHeight o) ]};
        spread_and (storeFrameOption o) {[ "frame" := bool_value (defaultFrame o) ]} ] in
  ret (Object_assign ∅ [defaults; stored]).

(** [new WinState(options)] over the store of [w]: the options are
    resolved, then [this.state = this.getState()]. *)
Definition constructor (options : Options) (w : World) : res WinState * World :=
  let this0 := {| opts := resolve options; state := ∅; win := None |} in
  match getState (mkSys this0 w) with
  | (Ok st, s) => (Ok (set_state st (this s)), world s)
  | (Throw e, s) => (Throw e, world s)
  end.

(** [saveState()]. *)
Definition saveState : M unit :=
  let* st := gets (fun s => state (this s)) in
  store_set st.

(** [this.state.k = v]. *)
Definition assign_state (k : string) (v : value) : M unit :=
  modify_this (fun t => set_state (<[k := v]> (state t)) t).

(** [changeFrame(value)]. *)
Definition changeFrame (value : bool) : M unit :=
  assign_state "frame" (VBool value) ;;
  saveState.

(** [reset()]. *)
Definition reset : M unit := store_clear.

(** [isNormal()]:
    [!this.win?.isMinimized() && !this.win?.isFullScreen()]. *)
Definition isNormal : M bool :=
  let* w := gets (fun s => win (this s)) in
  match w with
  | None => ret true
  | Some w =>
      let* m := isMinimized w in
      if negb m then
        let* f := isFullScreen w in ret (negb f)
      else ret false
  end.

(** The block guarded by [try] in [changeHandler]. *)
Definition changeHandler_body : M unit :=
  let* w := gets (fun s => win (this s)) in
  match w with
  | None => ret tt
  | Some w =>
      let* winBounds := getBounds w in
      let* normal := isNormal in
      (if normal then
         assign_state "x" (VNum (if bool_decide (r_x winBounds >= 0) then r_x winBounds else 0)) ;;
         assign_state "y" (VNum (if bool_decide (r_y winBounds >= 0) then r_y winBounds else 0)) ;;
         assign_state "width" (VNum (r_width winBounds)) ;;
         assign_state "height" (VNum (r_height winBounds))
       else ret tt) ;;
      let* d := gets (fun s => dev (opts (this s))) in
      if d then saveState else ret tt
  end.

(** [changeHandler()]. *)
Definition changeHandler : M unit :=
  try_catch changeHandler_body (fun _ => ret tt).

(** Modelled from the spec: [debounce] is the package of that name, not
    among the sources. [debounce(f, wait)] returns a new function object
    wrapping [f]. *)
Definition debounce_fn (a : Arrow) (wait : nat) : M Fn :=
  let* i := fresh_id in ret (Debounced i a wait).

(** [unmanage()]. *)
Definition unmanage : M unit :=
  let* w := gets (fun s => win (this s)) in
  match w with
  | None => ret tt
  | Some w =>
      let* d := gets (fun s => debounce (opts (this s))) in
      let* f1 := debounce_fn CallChangeHandler d in
      removeListener w "resize" f1 ;;
      let* f2 := debounce_fn CallChangeHandler d in
      removeListener w "move" f2 ;;
      let* f3 := arrow CallCloseHandler in
      removeListener w "close" f3 ;;
      let* f4 := arrow CallCloseHandler in
      removeListener w "closed" f4 ;;
      modify_this (set_win None)
  end.

(** [closeHandler()]. *)
Definition closeHandler : M unit :=
  unmanage ;;
  saveState.

(** The accessors [width], [height], [frame], [x], [y]. *)
Definition width (t : WinState) : value := prop (state t) "width".
Definition height (t : WinState) : value := prop (state t) "height".
Definition frame (t : WinState) : value := prop (state t) "frame".
Definition x (t : WinState) : value := prop (state t) "x".
Definition y (t : WinState) : value := prop (state t) "y".

(** The getter [winOptions]. *)
Definition winOptions (t : WinState) : obj :=
  Object_assign ∅
    [ {[ "width" := width t ]};
      {[ "height" := height t ]};
      spread_and (storeFrameOption (opts t)) {[ "frame" := frame t ]};
      {[ "x" := x t ]};
      {[ "y" := y t ]} ].

(** The three methods [manage] puts on the window when [addMethods]. *)
Definition resetWindowToDefault : M unit :=
  let* w := gets (fun s => win (this s)) in
  let* o := gets (fun s => opts (this s)) in
  match w with
  | Some w => setSize w (defaultWidth o) (defaultHeight o)
  | None => ret tt
  end ;;
  reset.

Definition setFramed (value : bool) : M unit := changeFrame value.

Definition getStoredWinOptions : M obj := gets (fun s => winOptions (this s)).

(** [manage(win)]. *)
Definition manage (w : nat) : M unit :=
  modify_this (set_win (Some w)) ;;
  let* d := gets (fun s => debounce (opts (this s))) in
  let* f1 := debounce_fn CallChangeHandler d in
  on w "maximize" f1 ;;
  let* f2 := debounce_fn CallChangeHandler d in
  on w "resize" f2 ;;
  let* f3 := debounce_fn CallChangeHandler d in
  on w "move" f3 ;;
  let* f4 := arrow CallCloseHandler in
  on w "close" f4 ;;
  let* f5 := arrow CallCloseHandler in
  on w "closed" f5 ;;
  let* am := gets (fun s => addMethods (opts (this s))) in
  if am then modify_world (fun wd => set_methods (methods wd ++ [w]) wd)
  else ret tt.

(** ** The event loop *)

Definition call_arrow (a : Arrow) : M unit :=
  match a with
  | CallChangeHandler => changeHandler
  | CallCloseHandler => closeHandler
  end.

(** Modelled from the spec: what calling the function returned by
    [debounce] does (the package is not among the sources). Each call
    resets the pending timer of that function: the wrapped function runs
    [wait] milliseconds after the last call. *)
Definition call_debounced (f : Fn) (wait : nat) : M unit :=
  modify_world (fun wd =>
    set_timers
      (filter (fun t => fn_id (fst t) <> fn_id f) (timers wd) ++ [(f, (now wd + wait)%nat)])
      wd).

(** Calling a function object. *)
Definition call_fn (f : Fn) : M unit :=
  match f with
  | Plain _ a => call_arrow a
  | Debounced _ _ wait => call_debounced f wait
  end.

(** [win.emit(ev)]: the listeners registered at that moment are called in
    registration order. *)
Definition emit (w : nat) (ev : string) : M unit :=
  let* ls := gets (fun s => listeners_of w ev (world s)) in
  for_each (fun r =>
              modify_world (add_log (EListener w ev (fn_id (reg_fn r)))) ;;
              call_fn (reg_fn r)) ls.

(** The wrapped function of a timer that fires. *)
Definition fire (t : Fn * nat) : M unit :=
  modify_world (add_log (ETimer (fn_id (fst t)))) ;;
  match fst t with
  | Plain _ a => call_arrow a
  | Debounced _ a _ => call_arrow a
  end.

(** One millisecond passes: the timers whose deadline is reached fire, in
    the order they were set. *)
Definition tick : M unit :=
  modify_world (fun wd => set_now (S (now wd)) wd) ;;
  let* t := gets (fun s => now (world s)) in
  let* due := gets (fun s => filter (fun e => (snd e <= t)%nat) (timers (world s))) in
  modify_world (fun wd => set_timers (filter (fun e => ~ (snd e <= t)%nat) (timers wd)) wd) ;;
  for_each fire due.

(** [n] milliseconds pass. *)
Fixpoint advance (n : nat) : M unit :=
  match n with
  | O => ret tt
  | S n' => tick ;; advance n'
  end.

(** The window changes under the user's hand. *)
Definition set_view (w : nat) (v : WinView) : M unit :=
  modify_world (fun wd => set_views (<[w := v]> (views wd)) wd).

(** ** Running the class *)

(** A world in which nothing has happened yet. *)
Definition init_world (st : obj) (vs : gmap nat WinView) : World :=
  {| store := st; views := vs; listeners := []; methods := []; next_fn := 0;
     now := 0; timers := []; log := [] |}.

(** The system right after [new WinState(options)]. *)
Definition new_WinState (options : Options) (w : World) : Sys :=
  let r := constructor options w in
  {| this := match fst r with
             | Ok t => t
             | Throw _ => {| opts := resolve options; state := ∅; win := None |}
             end;
     world := snd r |}.

(** The defaults record in the words of the specification: width and
    height always, frame only when [storeFrameOption]. *)
Definition defaults_record (o : FinalOptions) : obj :=
  if storeFrameOption o
  then {[ "width" := num_value (defaultWidth o);
          "height" := num_value (defaultHeight o);
          "frame" := bool_value (defaultFrame o) ]}
  else {[ "width" := num_value (defaultWidth o);
          "height" := num_value (defaultHeight o) ]}.

(** The window the instance is bound to answers "not minimized" and "not
    full-screen". *)
Definition reports_normal (s : Sys) : bool :=
  match win (this s) with
  | Some w =>
      match views (world s) !! w with
      | Some v =>
          match v_minimized v, v_fullScreen v with
          | Ok false, Ok false => true
          | _, _ => false
          end
      | None => false
      end
  | None => false
  end.

(** The four assignments of [changeHandler] on the state record. *)
Definition with_bounds (b : Rectangle) (st : obj) : obj :=
  <["height" := VNum (r_height b)]>
    (<["width" := VNum (r_width b)]>
       (<["y" := VNum (Z.max (r_y b) 0)]>
          (<["x" := VNum (Z.max (r_x b) 0)]> st))).

(** *** Reading the log *)

Definition store_sets (l : list Effect) : list obj :=
  omap (fun e => match e with EStoreSet o => Some o | _ => None end) l.

Definition listener_calls (l : list Effect) : list (nat * string * nat) :=
  omap (fun e => match e with EListener w ev i => Some (w, ev, i) | _ => None end) l.

Definition timer_fires (l : list Effect) : list nat :=
  omap (fun e => match e with ETimer i => Some i | _ => None end) l.

(** *** The binding state machine of the specification *)








(** *** Bursts of notifications *)





(** *** Sample data *)

Definition sample_options : Options :=
  {| o_defaultWidth := Given 800; o_defaultHeight := Given 600; o_defaultFrame := Absent;
     o_storeFrameOption := Absent; o_dev := Absent; o_debounce := Absent;
     o_addMethods := Absent |}.

Definition normal_view (b : Rectangle) : WinView :=
  {| v_bounds := Ok b; v_minimized := Ok false; v_fullScreen := Ok false |}.

Definition minimized_view (b : Rectangle) : WinView :=
  {| v_bounds := Ok b; v_minimized := Ok true; v_fullScreen := Ok false |}.

Definition sample_world : World :=
  init_world ∅ {[ 1%nat := normal_view (mkRect (-50) 30 640 480);
                  2%nat := normal_view (mkRect 5 6 300 200) ]}.

Definition sample_sys : Sys := new_WinState sample_options sample_world.

(** *** Time passing with no timer due *)



(** How often a timer callback has run so far. *)
Definition fire_count (s : Sys) : nat := length (timer_fires (log (world s))).

(** *** Everything that can happen to an instance *)

(** The window is destroyed: from now on its queries throw. *)
Definition destroy (w : nat) : M unit :=
  modify_world (fun wd => set_views (delete w (views wd)) wd).

(** The calls a program can make on the instance or on the methods put on
    the window, the events the window emits, and what the environment
    does (time passes, the window changes or goes away). *)
Inductive Action : Type :=
  | AGetState
  | ASaveState
  | AChangeFrame (value : bool)
  | AReset
  | AManage (w : nat)
  | AUnmanage
  | AChangeHandler
  | ACloseHandler
  | AResetWindowToDefault
  | ASetFramed (value : bool)
  | AGetStoredWinOptions
  | AEmit (w : nat) (ev : string)
  | AAdvance (n : nat)
  | ASetView (w : nat) (v : WinView)
  | ADestroy (w : nat).

Definition run_action (a : Action) : M unit :=
  match a with
  | AGetState => getState ;; ret tt
  | ASaveState => saveState
  | AChangeFrame value => changeFrame value
  | AReset => reset
  | AManage w => manage w
  | AUnmanage => unmanage
  | AChangeHandler => changeHandler
  | ACloseHandler => closeHandler
  | AResetWindowToDefault => resetWindowToDefault
  | ASetFramed value => setFramed value
  | AGetStoredWinOptions => getStoredWinOptions ;; ret tt
  | AEmit w ev => emit w ev
  | AAdvance n => advance n
  | ASetView w v => set_view w v
  | ADestroy w => destroy w
  end.

(** Each action is a turn of the event loop of its own: an exception that
    escapes one turn does not keep the next from running. *)
Definition run_actions (l : list Action) (s : Sys) : Sys :=
  foldl (fun s a => exec (run_action a) s) s l.


(** A computation keeps a property of the system, however it ends. *)
Definition keeps (P : Sys -> Prop) {A} (m : M A) : Prop :=
  forall s, P s -> P (exec m s).

(** A change of the world that leaves the registered listeners and the
    function counter alone. *)
Definition registry_preserving (f : World -> World) : Prop :=
  forall wd, listeners (f wd) = listeners wd /\ next_fn (f wd) = next_fn wd.

(** The rectangle the handler takes over: the bounds of the bound window,
    when it answers them and answers "not minimized" and "not
    full-screen". *)
Definition seen (s : Sys) : option Rectangle :=
  match win (this s) with
  | Some w =>
      match views (world s) !! w with
      | Some v =>
          match v_bounds v, v_minimized v, v_fullScreen v with
          | Ok b, Ok false, Ok false => Some b
          | _, _, _ => None
          end
      | None => None
      end
  | None => None
  end.

(** A window is bound and every query the handler makes returns. *)
Definition answers (s : Sys) : bool :=
  match win (this s) with
  | Some w =>
      match views (world s) !! w with
      | Some v =>
          match v_bounds v, v_minimized v, v_fullScreen v with
          | Ok _, Ok true, _ => true
          | Ok _, Ok false, Ok _ => true
          | _, _, _ => false
          end
      | None => false
      end
  | None => false
  end.

(** The state record the handler leaves. *)
Definition captured (s : Sys) : obj :=
  match seen s with
  | Some b => with_bounds b (state (this s))
  | None => state (this s)
  end.

(** The key holds a number that is not negative, or is absent. *)
Definition nonneg_at (k : string) (st : obj) : bool :=
  match st !! k with
  | Some (VNum n) => bool_decide (0 <= n)
  | Some _ => false
  | None => true
  end.

Definition xy_ok (st : obj) : bool := nonneg_at "x" st && nonneg_at "y" st.

(** The arrow function a function object ends up calling. *)
Definition fn_body (f : Fn) : Arrow :=
  match f with Plain _ a => a | Debounced _ a _ => a end.

(** Every registered listener is a function object made earlier. *)
Definition listeners_older (wd : World) : Prop :=
  Forall (fun r => (fn_id (reg_fn r) < next_fn wd)%nat) (listeners wd).

(** The four keys [winOptions] always carries. *)
Definition geometry_key (k : string) : bool :=
  bool_decide (k = "width") || bool_decide (k = "height")
  || bool_decide (k = "x") || bool_decide (k = "y").

(** *** Proof steps *)

(** Unfolding the handler down to the primitives. *)
Ltac unfold_handler :=
  unfold exec, outcome, changeHandler, changeHandler_body, isNormal,
    getBounds, isMinimized, isFullScreen, query, assign_state, saveState,
    store_set;
  unfold try_catch, bind, modify_this, modify_world, gets, ret.

Ltac reduce_handler H H' :=
  repeat (cbn beta iota delta
            [this world win opts state views fst snd set_state negb
             v_bounds v_minimized v_fullScreen];
          rewrite ?H, ?H').

(** Case analysis on whether the store takes the record. *)
Ltac split_store :=
  repeat match goal with
         | |- context [holds_undefined ?o] =>
             let Hu := fresh "Hu" in destruct (holds_undefined o) eqn:Hu
         end.

(** Case analysis on what the handler can see: the binding, the window,
    its three answers, the [dev] option and the store's answer. *)
Ltac handler_cases s :=
  let o := fresh "o" in let st := fresh "st" in let wn := fresh "wn" in
  let wd := fresh "wd" in let w := fresh "w" in let Hv := fresh "Hv" in
  let Hd := fresh "Hd" in
  destruct s as [[o st wn] wd];
  destruct wn as [w|];
  [ destruct (views wd !! w) as [[[?|?] [[|]|?] [[|]|?]]|] eqn:Hv;
    destruct (dev o) eqn:Hd;
    unfold_handler; reduce_handler Hv Hd;
    split_store; reduce_handler Hv Hd
  | unfold_handler; reduce_handler I I ].

(** Unfolding the binding operations down to the primitives. *)
Ltac unfold_binder :=
  unfold exec, outcome, closeHandler, manage, unmanage, saveState, store_set,
    removeListener, on, arrow, debounce_fn, fresh_id;
  unfold bind, modify_this, modify_world, gets, ret;
  cbn [this world win opts state fst snd set_win].

(** * Properties *)

(** ** Object.assign is the overlay in which the source wins *)

Lemma assign1_union (target src : obj) : assign1 target src = src ∪ target.
Proof.
  unfold assign1.
  induction src as [|k v src Hk Hfold IH] using map_first_key_ind.
  - rewrite map_fold_empty. by rewrite (left_id_L ∅ (∪)).
  - rewrite map_fold_insert_first_key by done.
    rewrite IH. by rewrite insert_union_l.
Qed.

Lemma assign1_empty_l (src : obj) : assign1 ∅ src = src.
Proof. rewrite assign1_union. by rewrite (right_id_L ∅ (∪)). Qed.

Lemma assign1_lookup (target src : obj) (k : string) :
  assign1 target src !! k =
  match src !! k with Some v => Some v | None => target !! k end.
Proof.
  rewrite assign1_union, lookup_union.
  destruct (src !! k), (target !! k); reflexivity.
Qed.

Lemma defaults_assign (o : FinalOptions) :
  Object_assign ∅
    [ {[ "width" := num_value (defaultWidth o) ]};
      {[ "height" := num_value (defaultHeight o) ]};
      spread_and (storeFrameOption o) {[ "frame" := bool_value (defaultFrame o) ]} ]
  = defaults_record o.
Proof.
  unfold Object_assign, defaults_record, spread_and; simpl.
  rewrite !assign1_union.
  apply map_eq; intros k.
  destruct (storeFrameOption o);
    rewrite ?lookup_union, ?lookup_insert, ?lookup_singleton, ?lookup_empty;
    repeat case_decide; subst; first [congruence | reflexivity].
Qed.

(** ** getState *)

(** What [getState] returns, and that it writes nothing. *)
Lemma getState_run (s : Sys) :
  getState s = (Ok (store (world s) ∪ defaults_record (opts (this s))), s).
Proof.
  cbv [getState bind store_read gets ret].
  rewrite defaults_assign.
  unfold Object_assign; cbn [foldl].
  by rewrite assign1_empty_l, assign1_union.
Qed.

Lemma constructor_run (options : Options) (w : World) :
  constructor options w =
  (Ok {| opts := resolve options;
         state := store w ∪ defaults_record (resolve options);
         win := None |}, w).
Proof. unfold constructor. rewrite getState_run. reflexivity. Qed.

(** C2. For every stored record and every configuration, [getState]
    returns the defaults record (width and height always, frame only when
    [storeFrameOption]) overlaid by the stored record, the stored keys
    winning; it writes nothing, and a second call right after the first
    returns the same record. *)
Theorem getState_overlays_store (s : Sys) :
  exists r : obj,
    getState s = (Ok r, s)
    /\ (forall k : string,
          r !! k = match store (world s) !! k with
                   | Some v => Some v
                   | None => defaults_record (opts (this s)) !! k
                   end)
    /\ (getState ;; getState) s = (Ok r, s).
Proof.
  exists (store (world s) ∪ defaults_record (opts (this s))).
  split; [apply getState_run|]. split.
  - intros k. rewrite lookup_union.
    destruct (store (world s) !! k), (defaults_record (opts (this s)) !! k); reflexivity.
  - unfold bind. rewrite getState_run. apply getState_run.
Qed.

(** ** changeHandler *)

Lemma clamp_max (z : Z) : (if bool_decide (z >= 0) then z else 0) = Z.max z 0.
Proof. case_bool_decide; lia. Qed.

(** The handler returns normally, whatever it is run on. *)
Lemma changeHandler_ok (s : Sys) : outcome changeHandler s = Ok tt.
Proof. handler_cases s; reflexivity. Qed.

(** C10. For every state of the instance and every behaviour of the
    window, [changeHandler] returns normally: it never propagates an
    error. When the guarded block throws (a bounds, minimized or
    full-screen query failed), the error is discarded and the system is
    left as the block left it. *)
Theorem changeHandler_never_throws (s : Sys) :
  outcome changeHandler s = Ok tt
  /\ (forall e : string,
        outcome changeHandler_body s = Throw e ->
        exec changeHandler s = exec changeHandler_body s).
Proof.
  split; [apply changeHandler_ok|].
  intros e; handler_cases s; try reflexivity; try discriminate.
Qed.

(** The handler's body does throw when the window is gone. *)
Lemma changeHandler_body_throws (s : Sys) (w : nat) :
  win (this s) = Some w -> views (world s) !! w = None ->
  changeHandler_body s = (Throw destroyed, s).
Proof.
  destruct s as [[o st wn] wd]; simpl. intros -> Hv.
  unfold_handler. reduce_handler Hv I. reflexivity.
Qed.

(** C5. Whenever the bound window does not answer "not minimized" and
    "not full-screen" (it is minimized, or full-screen, or a query fails,
    or no window is bound), [changeHandler] leaves the state record, and
    so x, y, width and height, as they were: they are written only for a
    window in normal display mode. *)
Theorem changeHandler_keeps_geometry (s : Sys) :
  reports_normal s = false ->
  state (this (exec changeHandler s)) = state (this s)
  /\ x (this (exec changeHandler s)) = x (this s)
  /\ y (this (exec changeHandler s)) = y (this s)
  /\ width (this (exec changeHandler s)) = width (this s)
  /\ height (this (exec changeHandler s)) = height (this s).
Proof.
  intros Hn.
  assert (Hst : state (this (exec changeHandler s)) = state (this s)).
  { revert Hn. unfold reports_normal.
    handler_cases s; try reflexivity; try discriminate. }
  unfold x, y, width, height. by rewrite Hst.
Qed.

Lemma with_bounds_lookup (b : Rectangle) (st : obj) :
  with_bounds b st !! "x" = Some (VNum (Z.max (r_x b) 0))
  /\ with_bounds b st !! "y" = Some (VNum (Z.max (r_y b) 0))
  /\ with_bounds b st !! "width" = Some (VNum (r_width b))
  /\ with_bounds b st !! "height" = Some (VNum (r_height b)).
Proof.
  unfold with_bounds.
  repeat split; rewrite !lookup_insert; repeat case_decide; done.
Qed.

(** What the handler does for a window in normal display mode. *)
Lemma changeHandler_normal_run (s : Sys) (w : nat) (v : WinView) (b : Rectangle) :
  win (this s) = Some w ->
  views (world s) !! w = Some v ->
  v_bounds v = Ok b -> v_minimized v = Ok false -> v_fullScreen v = Ok false ->
  exec changeHandler s =
  let t := set_state (with_bounds b (state (this s))) (this s) in
  {| this := t;
     world := if dev (opts (this s)) && negb (holds_undefined (state t))
              then add_log (EStoreSet (state t))
                     (set_store (assign1 (store (world s)) (state t)) (world s))
              else world s |}.
Proof.
  destruct s as [[o st wn] wd]; destruct v as [vb vm vf]; simpl.
  intros -> Hv -> -> ->.
  unfold_handler. reduce_handler Hv I.
  rewrite !clamp_max. unfold with_bounds.
  destruct (dev o); [|reflexivity].
  cbn [this state set_state andb]. split_store; reflexivity.
Qed.

(** C7. For a bound window in normal display mode, [changeHandler]
    overwrites x and y with the live bounds clamped at 0 (max(x,0),
    max(y,0)) and width and height with the live width and height; live
    bounds x = -50, y = 30 give x = 0 and y = 30; with [dev] the record is
    written to the store at once, unless the store refuses it for an
    undefined value in it. *)
Theorem changeHandler_normal_window (s : Sys) (w : nat) (v : WinView) (b : Rectangle) :
  win (this s) = Some w ->
  views (world s) !! w = Some v ->
  v_bounds v = Ok b -> v_minimized v = Ok false -> v_fullScreen v = Ok false ->
  let t := this (exec changeHandler s) in
  state t = with_bounds b (state (this s))
  /\ x t = VNum (Z.max (r_x b) 0)
  /\ y t = VNum (Z.max (r_y b) 0)
  /\ width t = VNum (r_width b)
  /\ height t = VNum (r_height b)
  /\ (r_x b = -50 -> r_y b = 30 -> x t = VNum 0 /\ y t = VNum 30)
  /\ (dev (opts (this s)) = true ->
      store (world (exec changeHandler s)) =
      if holds_undefined (state t) then store (world s)
      else state t ∪ store (world s)).
Proof.
  intros Hw Hv Hb Hm Hf t. subst t.
  rewrite (changeHandler_normal_run s w v b) by done.
  cbn [this world state set_state].
  destruct (with_bounds_lookup b (state (this s))) as (Hx & Hy & Hwd & Hh).
  unfold x, y, width, height, prop; cbn [state set_state].
  rewrite Hx, Hy, Hwd, Hh; cbn [default].
  do 5 (split; [reflexivity|]). split.
  - intros -> ->. split; reflexivity.
  - intros ->. cbn [andb negb].
    destruct (holds_undefined (with_bounds b (state (this s)))); cbn [negb]; [reflexivity|].
    cbn [store add_log set_store]. apply assign1_union.
Qed.

(** C7 at the window dragged to x = -50, y = 30. *)
Lemma changeHandler_normal_window_witness :
  let s := exec (manage 1) sample_sys in
  let b := mkRect (-50) 30 640 480 in
  (win (this s) = Some 1%nat /\ views (world s) !! 1%nat = Some (normal_view b))
  /\ x (this (exec changeHandler s)) = VNum 0
  /\ y (this (exec changeHandler s)) = VNum 30.
Proof.
  intros s b.
  assert (Hw : win (this s) = Some 1%nat) by reflexivity.
  assert (Hv : views (world s) !! 1%nat = Some (normal_view b)) by reflexivity.
  split; [by split|].
  destruct (changeHandler_normal_window s 1%nat (normal_view b) b Hw Hv eq_refl eq_refl eq_refl)
    as (_ & _ & _ & _ & _ & H & _).
  apply H; reflexivity.
Defined.

(** C5 at a minimized window. *)
Lemma changeHandler_keeps_geometry_witness :
  let s := exec (manage 1 ;; set_view 1 (minimized_view (mkRect 0 0 160 28))) sample_sys in
  reports_normal s = false
  /\ width (this (exec changeHandler s)) = VNum 800
  /\ height (this (exec changeHandler s)) = VNum 600.
Proof.
  intros s.
  assert (Hn : reports_normal s = false) by reflexivity.
  split; [exact Hn|].
  destruct (changeHandler_keeps_geometry s Hn) as (_ & _ & _ & Hwd & Hh).
  rewrite Hwd, Hh. split; reflexivity.
Defined.

(** ** changeFrame and reset *)

(** [saveState] in one step: the store takes the record, or refuses it and
    nothing changes. *)
Lemma saveState_run (s : Sys) :
  saveState s =
  if holds_undefined (state (this s)) then (Throw type_error, s)
  else (Ok tt,
        {| this := this s;
           world := add_log (EStoreSet (state (this s)))
                      (set_store (state (this s) ∪ store (world s)) (world s)) |}).
Proof.
  unfold saveState, store_set, bind, gets, modify_world.
  destruct (holds_undefined (state (this s))); [reflexivity|].
  by rewrite assign1_union.
Qed.

(** The constructor called with [defaultWidth: undefined] over an empty
    store: the state record holds an undefined width, [saveState] throws
    and nothing is written; so does the close handler, after it has
    cleared the binding. *)
Example saveState_refuses_undefined :
  let options :=
    {| o_defaultWidth := Undefined; o_defaultHeight := Given 600; o_defaultFrame := Absent;
       o_storeFrameOption := Absent; o_dev := Absent; o_debounce := Absent;
       o_addMethods := Absent |} in
  let s := new_WinState options sample_world in
  state (this s) !! "width" = Some VUndefined
  /\ saveState s = (Throw type_error, s)
  /\ outcome (manage 1 ;; closeHandler) s = Throw type_error
  /\ win (this (exec (manage 1 ;; closeHandler) s)) = None
  /\ store (world (exec (manage 1 ;; closeHandler) s)) = ∅.
Proof. vm_compute. repeat split; reflexivity. Qed.

Lemma changeFrame_run (value : bool) (s : Sys) :
  changeFrame value s =
  let st := <["frame" := VBool value]> (state (this s)) in
  if holds_undefined st
  then (Throw type_error, {| this := set_state st (this s); world := world s |})
  else (Ok tt,
        {| this := set_state st (this s);
           world := add_log (EStoreSet st) (set_store (st ∪ store (world s)) (world s)) |}).
Proof.
  unfold changeFrame, assign_state. unfold bind at 1, modify_this at 1.
  rewrite saveState_run. cbn [this world state set_state].
  by destruct (holds_undefined _).
Qed.

(** C4, amended. When [changeFrame(false)] returns (the store took the
    record), a fresh instance over the same store has a state record
    ([getState]) with [frame: false] whatever its [storeFrameOption]; its
    [winOptions] carries [frame: false] when [storeFrameOption] is true
    and has no frame key when it is false. *)
Theorem changeFrame_fresh_instance (s : Sys) (options : Options) :
  outcome (changeFrame false) s = Ok tt ->
  let w := world (exec (changeFrame false) s) in
  exists t : WinState,
    constructor options w = (Ok t, w)
    /\ state t !! "frame" = Some (VBool false)
    /\ winOptions t !! "frame" =
       if storeFrameOption (resolve options) then Some (VBool false) else None.
Proof.
  intros Hret w. eexists. split; [apply constructor_run|].
  assert (Hf : (store w ∪ defaults_record (resolve options)) !! "frame" = Some (VBool false)).
  { subst w. revert Hret. unfold outcome, exec. rewrite changeFrame_run. cbv zeta.
    destruct (holds_undefined _); [discriminate|]. intros _.
    cbn [snd world store add_log set_store].
    apply lookup_union_Some_l, lookup_union_Some_l, lookup_insert_eq. }
  split; [exact Hf|].
  unfold winOptions, Object_assign, frame, prop; cbn [foldl opts state].
  rewrite !assign1_lookup, Hf.
  unfold spread_and. destruct (storeFrameOption (resolve options)); reflexivity.
Qed.

(** C4 at the sample instance, with and without frame tracking in the
    fresh instance. *)
Lemma changeFrame_fresh_instance_witness :
  let w := world (exec (changeFrame false) sample_sys) in
  outcome (changeFrame false) sample_sys = Ok tt
  /\ exists t : WinState,
       constructor sample_options w = (Ok t, w)
       /\ state t !! "frame" = Some (VBool false)
       /\ winOptions t !! "frame" = None.
Proof.
  intros w.
  assert (H : outcome (changeFrame false) sample_sys = Ok tt) by (vm_compute; reflexivity).
  split; [exact H|].
  destruct (changeFrame_fresh_instance sample_sys sample_options H) as (t & Hc & Hf & Hw).
  exists t. split; [exact Hc|]. split; [exact Hf|]. exact Hw.
Defined.

(** C4 as stated fails: with [storeFrameOption] false, the state record of
    a fresh instance after [changeFrame(false)], which returned, does
    contain the frame key. *)
Lemma changeFrame_fresh_instance_counterexample :
  let w := world (exec (changeFrame false) sample_sys) in
  outcome (changeFrame false) sample_sys = Ok tt
  /\ storeFrameOption (resolve sample_options) = false
  /\ exists t : WinState,
       constructor sample_options w = (Ok t, w)
       /\ state t !! "frame" = Some (VBool false)
       /\ state t !! "frame" <> None.
Proof.
  intros w. split; [vm_compute; reflexivity|]. split; [reflexivity|].
  eexists. split; [apply constructor_run|].
  assert (H : (store w ∪ defaults_record (resolve sample_options)) !! "frame"
              = Some (VBool false)) by (vm_compute; reflexivity).
  cbn [state]. rewrite H. split; [reflexivity|discriminate].
Qed.

(** C8. [reset] empties the store and leaves the instance as it was, so
    [winOptions] and the accessors read the same values after it; a fresh
    instance made after [reset] has exactly the defaults record as state,
    with no x or y key. *)
Theorem reset_clears_store_only (s : Sys) (options : Options) :
  let s' := exec reset s in
  outcome reset s = Ok tt
  /\ store (world s') = ∅
  /\ this s' = this s
  /\ winOptions (this s') = winOptions (this s)
  /\ (width (this s'), height (this s'), frame (this s'), x (this s'), y (this s'))
     = (width (this s), height (this s), frame (this s), x (this s), y (this s))
  /\ exists t : WinState,
       constructor options (world s') = (Ok t, world s')
       /\ state t = defaults_record (resolve options)
       /\ state t !! "x" = None /\ state t !! "y" = None.
Proof.
  intros s'. subst s'. unfold exec, outcome, reset, store_clear, modify_world.
  cbn [fst snd this world store add_log set_store].
  do 5 (split; [reflexivity|]).
  eexists. split; [apply constructor_run|].
  cbn [state store add_log set_store].
  rewrite (left_id_L ∅ (∪)).
  split; [reflexivity|].
  unfold defaults_record. destruct (storeFrameOption (resolve options)); split; reflexivity.
Qed.

(** ** manage, unmanage, closeHandler *)

(** [manage] in one step. *)
Lemma manage_eq (w : nat) (s : Sys) :
  let n := next_fn (world s) in
  let d := debounce (opts (this s)) in
  manage w s =
  (Ok tt,
   {| this := set_win (Some w) (this s);
      world :=
        (if addMethods (opts (this s))
         then set_methods (methods (world s) ++ [w])
         else fun wd => wd)
          (set_next_fn (S (S (S (S (S n)))))
             (set_listeners
                (listeners (world s) ++
                   [ mkReg w "maximize" (Debounced n CallChangeHandler d);
                     mkReg w "resize" (Debounced (S n) CallChangeHandler d);
                     mkReg w "move" (Debounced (S (S n)) CallChangeHandler d);
                     mkReg w "close" (Plain (S (S (S n))) CallCloseHandler);
                     mkReg w "closed" (Plain (S (S (S (S n)))) CallCloseHandler) ])
                (world s))) |}).
Proof.
  destruct s as [[o st wn] [sto vs ls ms nf nw tm lg]].
  unfold_binder.
  cbn [set_listeners set_next_fn set_methods store views listeners methods next_fn
       now timers log opts].
  rewrite <- !app_assoc.
  destruct (addMethods o); reflexivity.
Qed.

Lemma manage_ok (w : nat) (s : Sys) :
  outcome (manage w) s = Ok tt /\ win (this (exec (manage w) s)) = Some w.
Proof. unfold outcome, exec. rewrite manage_eq. split; reflexivity. Qed.

Lemma unmanage_ok (s : Sys) :
  outcome unmanage s = Ok tt /\ win (this (exec unmanage s)) = None.
Proof.
  destruct s as [[o st wn] [sto vs ls ms nf nw tm lg]].
  unfold_binder. destruct wn; split; reflexivity.
Qed.

(** [unmanage] does nothing at all when no window is bound. *)
Lemma unmanage_unbound (s : Sys) : win (this s) = None -> unmanage s = (Ok tt, s).
Proof. intros Hw. unfold unmanage, bind, gets, ret. by rewrite Hw. Qed.




Lemma bind_run {A B} (m : M A) (k : A -> M B) (s : Sys) (a : A) :
  outcome m s = Ok a -> bind m k s = k a (exec m s).
Proof. unfold outcome, exec, bind. destruct (m s) as [r s']. simpl. by intros ->. Qed.

(** ** Timers *)











(** ** A burst of notifications *)















(** ** The listeners after unmanage *)

(** C3. On a fresh instance, after [manage(1)] and [unmanage()] the
    window reference is cleared, yet the five listeners are all still
    registered on the window, and a later resize still reaches the
    debounced listener. *)
Lemma unmanage_leaves_listeners :
  let s := exec (manage 1 ;; unmanage) sample_sys in
  outcome (manage 1 ;; unmanage) sample_sys = Ok tt
  /\ win (this s) = None
  /\ map (fun r => (reg_win r, reg_event r, fn_id (reg_fn r))) (listeners (world s))
     = [ (1, "maximize", 0); (1, "resize", 1); (1, "move", 2);
         (1, "close", 3); (1, "closed", 4) ]%nat
  /\ listener_calls (log (world (exec (emit 1 "resize") s))) = [ (1, "resize", 1) ]%nat.
Proof. vm_compute. repeat split; reflexivity. Qed.

(** C1. On a fresh instance managing window 1, [close] followed by
    [closed] writes the state record to the store twice: the first close
    clears the reference and saves, the [closed] listener is still
    registered, is called, and saves again (the same contents). [unmanage]
    on the unbound instance changes nothing. *)
Lemma close_then_closed_saves_twice :
  let s1 := exec (manage 1 ;; emit 1 "move" ;; advance 500) sample_sys in
  let s2 := exec (emit 1 "close") s1 in
  let s3 := exec (emit 1 "closed") s2 in
  win (this s2) = None
  /\ length (store_sets (log (world s2))) = 1%nat
  /\ length (store_sets (log (world s3))) = 2%nat
  /\ listener_calls (log (world s3))
     = [ (1, "move", 2); (1, "close", 3); (1, "closed", 4) ]%nat
  /\ store (world s3) = store (world s2)
  /\ unmanage s2 = (Ok tt, s2).
Proof. vm_compute. repeat split; reflexivity. Qed.

(** * Further properties of the class *)

(** ** The getter winOptions *)

(** The keys of [winOptions], one by one. *)
Lemma winOptions_lookup (t : WinState) (k : string) :
  winOptions t !! k =
  if geometry_key k then Some (prop (state t) k)
  else if bool_decide (k = "frame") && storeFrameOption (opts t)
       then Some (frame t)
       else None.
Proof.
  unfold winOptions, Object_assign, geometry_key; cbn [foldl].
  rewrite !assign1_lookup. unfold spread_and, width, height, x, y, frame.
  destruct (storeFrameOption (opts t));
    rewrite ?lookup_singleton, ?lookup_empty;
    repeat case_decide; subst; try congruence; try reflexivity;
    rewrite ?bool_decide_eq_false_2 by congruence;
    try reflexivity;
    case_bool_decide; first [reflexivity | congruence].
Qed.

(** [winOptions] carries width, height, x and y in every case (a key the
    state record lacks reads undefined), frame exactly when frame tracking
    is on, and nothing else: no other key that came in from the store is
    handed on to the window. *)
Theorem winOptions_carries_only_geometry (t : WinState) (k : string) :
  winOptions t !! k =
  if geometry_key k then Some (prop (state t) k)
  else if bool_decide (k = "frame") && storeFrameOption (opts t)
       then Some (frame t)
       else None.
Proof. apply winOptions_lookup. Qed.

(** ** Saving and restarting *)

(** The close handler in full: it unbinds, then the store takes the state
    record or refuses it. *)
Lemma closeHandler_run (s : Sys) :
  outcome closeHandler s =
    (if holds_undefined (state (this s)) then Throw type_error else Ok tt)
  /\ this (exec closeHandler s) = set_win None (this s)
  /\ store (world (exec closeHandler s)) =
     (if holds_undefined (state (this s)) then store (world s)
      else state (this s) ∪ store (world s))
  /\ views (world (exec closeHandler s)) = views (world s)
  /\ timers (world (exec closeHandler s)) = timers (world s)
  /\ now (world (exec closeHandler s)) = now (world s).
Proof.
  destruct s as [[o st wn] [sto vs ls ms nf nw tm lg]].
  unfold_binder.
  destruct wn; cbn [this world state set_win store views timers now
                    set_listeners set_next_fn];
    destruct (holds_undefined st);
    cbn [fst snd this world store views timers now add_log set_store
         set_listeners set_next_fn];
    rewrite ?assign1_union; repeat split; reflexivity.
Qed.

Lemma lookup_union_match (a b : obj) (k : string) :
  (a ∪ b) !! k = match a !! k with Some v => Some v | None => b !! k end.
Proof. rewrite lookup_union. destruct (a !! k), (b !! k); reflexivity. Qed.

(** A fresh instance over an empty store offers the configured defaults.
    Width and height are the ones the caller gave, 600 and 800 when the
    caller left the key out, and undefined when the caller passed the key
    with the value undefined; x and y are present but undefined; there is
    a frame key exactly when frame tracking is on, and tracking is on by
    default exactly when the caller gave a [defaultFrame] that is not
    undefined. *)
Theorem fresh_instance_winOptions (options : Options) (w : World) :
  store w = ∅ ->
  exists t : WinState,
    constructor options w = (Ok t, w)
    /\ storeFrameOption (opts t) =
       match o_storeFrameOption options with
       | Absent => is_given (o_defaultFrame options)
       | Undefined => false
       | Given b => b
       end
    /\ winOptions t !! "width" =
       Some match o_defaultWidth options with
            | Absent => VNum 600
            | Undefined => VUndefined
            | Given n => VNum n
            end
    /\ winOptions t !! "height" =
       Some match o_defaultHeight options with
            | Absent => VNum 800
            | Undefined => VUndefined
            | Given n => VNum n
            end
    /\ winOptions t !! "x" = Some VUndefined
    /\ winOptions t !! "y" = Some VUndefined
    /\ winOptions t !! "frame" =
       if storeFrameOption (opts t)
       then Some match o_defaultFrame options with
                 | Absent => VBool true
                 | Undefined => VUndefined
                 | Given b => VBool b
                 end
       else None.
Proof.
  intros Hst. eexists. split; [apply constructor_run|].
  rewrite Hst, (left_id_L ∅ (∪)).
  split.
  { cbn [opts resolve storeFrameOption defaultOptions assign_flag].
    destruct (o_storeFrameOption options); try reflexivity. apply orb_false_r. }
  rewrite !winOptions_lookup. cbn [opts state geometry_key].
  unfold frame, prop, defaults_record; cbn [state].
  destruct (storeFrameOption (resolve options)) eqn:Hs;
    cbn [resolve defaultWidth defaultHeight defaultFrame defaultOptions];
    destruct (o_defaultWidth options), (o_defaultHeight options), (o_defaultFrame options);
    repeat split; reflexivity.
Qed.

(** The property above at the sample instance. *)
Lemma fresh_instance_winOptions_witness :
  let options :=
    {| o_defaultWidth := Undefined; o_defaultHeight := Given 600; o_defaultFrame := Absent;
       o_storeFrameOption := Absent; o_dev := Absent; o_debounce := Absent;
       o_addMethods := Absent |} in
  store sample_world = ∅
  /\ exists t : WinState,
       constructor options sample_world = (Ok t, sample_world)
       /\ winOptions t !! "width" = Some VUndefined
       /\ winOptions t !! "height" = Some (VNum 600)
       /\ winOptions t !! "x" = Some VUndefined
       /\ winOptions t !! "frame" = None.
Proof.
  intros options. split; [reflexivity|].
  destruct (fresh_instance_winOptions options sample_world eq_refl)
    as (t & Hc & Hs & Hw & Hh & Hx & _ & Hf).
  exists t. split; [exact Hc|]. split; [exact Hw|]. split; [exact Hh|].
  split; [exact Hx|]. rewrite Hf, Hs. reflexivity.
Defined.

(** What [saveState] wrote is what the next start reads. When the state
    record holds no undefined value, [saveState] returns and a fresh
    instance takes every key of the saved record, then the keys the store
    held before, then the defaults. When it holds one, [saveState] throws
    a TypeError, nothing is written, and the fresh instance sees the
    store as it was. The instance itself is unchanged either way. *)
Theorem saveState_then_restart (s : Sys) (options : Options) :
  let w := world (exec saveState s) in
  let saved := if holds_undefined (state (this s)) then ∅ else state (this s) in
  outcome saveState s =
    (if holds_undefined (state (this s)) then Throw type_error else Ok tt)
  /\ this (exec saveState s) = this s
  /\ store w = saved ∪ store (world s)
  /\ exists t : WinState,
       constructor options w = (Ok t, w)
       /\ forall k : string,
            state t !! k =
            match saved !! k with
            | Some v => Some v
            | None =>
                match store (world s) !! k with
                | Some v => Some v
                | None => defaults_record (resolve options) !! k
                end
            end.
Proof.
  intros w saved. subst w saved. unfold outcome, exec. rewrite saveState_run.
  destruct (holds_undefined (state (this s))); cbn [fst snd this world];
    (split; [reflexivity|]); (split; [reflexivity|]);
    cbn [store add_log set_store];
    (split; [by rewrite ?(left_id_L ∅ (∪))|]);
    (eexists; split; [apply constructor_run|]);
    intros k; cbn [state store add_log set_store];
    rewrite !lookup_union_match, ?lookup_empty; try reflexivity.
  by destruct (state (this s) !! k).
Qed.

(** ** changeHandler at the edges *)

Lemma changeHandler_noop (s : Sys) :
  win (this s) = None -> changeHandler s = (Ok tt, s).
Proof. destruct s as [[o st wn] wd]. cbn. by intros ->. Qed.

(** With no window bound the handler does nothing at all: it returns at
    once, the instance, the store and the log are as before. *)
Theorem changeHandler_unbound (s : Sys) :
  win (this s) = None -> changeHandler s = (Ok tt, s).
Proof. apply changeHandler_noop. Qed.

(** The property above at the sample instance. *)
Lemma changeHandler_unbound_witness :
  win (this sample_sys) = None /\ changeHandler sample_sys = (Ok tt, sample_sys).
Proof. split; [reflexivity|]. apply changeHandler_unbound. reflexivity. Defined.

(** Without the [dev] option the handler leaves the world alone: nothing
    is written to the store before the window closes. *)
Theorem changeHandler_without_dev (s : Sys) :
  dev (opts (this s)) = false -> world (exec changeHandler s) = world s.
Proof.
  handler_cases s; cbn [opts]; intros Hdev; try reflexivity; congruence.
Qed.

(** The property above at the sample instance. *)
Lemma changeHandler_without_dev_witness :
  let s := exec (manage 1) sample_sys in
  dev (opts (this s)) = false /\ world (exec changeHandler s) = world s.
Proof.
  intros s. assert (H : dev (opts (this s)) = false) by reflexivity.
  split; [exact H|]. exact (changeHandler_without_dev s H).
Defined.

(** The handler writes the state record in one of two ways: not at all, or
    the four geometry keys from one rectangle; the options and the binding
    are never touched. *)
Lemma changeHandler_state (s : Sys) :
  opts (this (exec changeHandler s)) = opts (this s)
  /\ win (this (exec changeHandler s)) = win (this s)
  /\ (state (this (exec changeHandler s)) = state (this s)
      \/ exists b, state (this (exec changeHandler s)) = with_bounds b (state (this s))).
Proof.
  handler_cases s; repeat split; try (left; reflexivity);
    right; eexists; unfold with_bounds; rewrite <- !clamp_max; reflexivity.
Qed.

(** The handler writes no key but x, y, width and height: a stored frame
    flag, or any other key the store brought in, stays as it is. *)
Theorem changeHandler_keeps_other_keys (s : Sys) (k : string) :
  geometry_key k = false ->
  state (this (exec changeHandler s)) !! k = state (this s) !! k.
Proof.
  intros Hk.
  destruct (changeHandler_state s) as (_ & _ & [-> | [b ->]]); [reflexivity|].
  unfold geometry_key in Hk.
  repeat (apply orb_false_elim in Hk as [Hk ?]).
  repeat match goal with H : bool_decide _ = false |- _ =>
    apply bool_decide_eq_false in H end.
  unfold with_bounds. by rewrite !lookup_insert_ne.
Qed.

(** The property above at the sample instance. *)
Lemma changeHandler_keeps_other_keys_witness :
  let s := exec (changeFrame false ;; manage 1) sample_sys in
  geometry_key "frame" = false
  /\ state (this (exec changeHandler s)) !! "frame" = Some (VBool false).
Proof.
  intros s. split; [reflexivity|].
  rewrite (changeHandler_keeps_other_keys s "frame" eq_refl).
  vm_compute. reflexivity.
Defined.

Lemma seq_run {B} (m : M unit) (k : M B) (s : Sys) :
  outcome m s = Ok tt -> (m ;; k) s = k (exec m s).
Proof. apply (bind_run m (fun _ => k) s tt). Qed.

Lemma exec_seq {B} (m : M unit) (k : M B) (s : Sys) :
  outcome m s = Ok tt -> exec (m ;; k) s = exec k (exec m s).
Proof. intros H. unfold exec at 1. by rewrite (seq_run _ _ s H). Qed.

Lemma outcome_seq {B} (m : M unit) (k : M B) (s : Sys) :
  outcome m s = Ok tt -> outcome (m ;; k) s = outcome k (exec m s).
Proof. intros H. unfold outcome at 1. by rewrite (seq_run _ _ s H). Qed.

(** The geometry the handler captured is what a restart finds: after the
    handler ran on a window in normal display mode and the window closed,
    and the record the handler left holds no undefined value (so that the
    store takes it), the close handler returns and a fresh instance reads
    x, y (clamped at 0), width and height of that window, whatever the
    store held before and whatever its defaults. *)
Theorem restart_restores_geometry
    (s : Sys) (w : nat) (v : WinView) (b : Rectangle) (options : Options) :
  win (this s) = Some w ->
  views (world s) !! w = Some v ->
  v_bounds v = Ok b -> v_minimized v = Ok false -> v_fullScreen v = Ok false ->
  holds_undefined (with_bounds b (state (this s))) = false ->
  let wd := world (exec (changeHandler ;; closeHandler) s) in
  outcome (changeHandler ;; closeHandler) s = Ok tt
  /\ exists t : WinState,
       constructor options wd = (Ok t, wd)
       /\ x t = VNum (Z.max (r_x b) 0)
       /\ y t = VNum (Z.max (r_y b) 0)
       /\ width t = VNum (r_width b)
       /\ height t = VNum (r_height b).
Proof.
  intros Hw Hv Hb Hm Hf Hu wd. subst wd.
  rewrite (outcome_seq _ _ s), (exec_seq _ _ s) by apply changeHandler_ok.
  destruct (closeHandler_run (exec changeHandler s)) as (Ho & _ & Hst & _).
  assert (Hst1 : state (this (exec changeHandler s)) = with_bounds b (state (this s)))
    by (by rewrite (changeHandler_normal_run s w v b Hw Hv Hb Hm Hf)).
  rewrite Hst1, Hu in Ho, Hst.
  split; [exact Ho|].
  eexists. split; [apply constructor_run|]. rewrite Hst.
  assert (Hsto : exists sto, store (world (exec changeHandler s)) = sto) by eauto.
  destruct Hsto as [sto ->].
  destruct (with_bounds_lookup b (state (this s))) as (Hx & Hy & Hwd & Hh).
  unfold x, y, width, height, prop. cbn [state].
  rewrite !lookup_union_match, Hx, Hy, Hwd, Hh. repeat split; reflexivity.
Qed.

(** The property above at the sample instance, window 1 at x = -50. *)
Lemma restart_restores_geometry_witness :
  let s := exec (manage 1) sample_sys in
  let b := mkRect (-50) 30 640 480 in
  let wd := world (exec (changeHandler ;; closeHandler) s) in
  (win (this s) = Some 1%nat /\ views (world s) !! 1%nat = Some (normal_view b)
   /\ holds_undefined (with_bounds b (state (this s))) = false)
  /\ exists t : WinState,
       constructor sample_options wd = (Ok t, wd)
       /\ x t = VNum 0 /\ y t = VNum 30 /\ width t = VNum 640 /\ height t = VNum 480.
Proof.
  intros s b wd.
  assert (Hw : win (this s) = Some 1%nat) by reflexivity.
  assert (Hv : views (world s) !! 1%nat = Some (normal_view b)) by reflexivity.
  assert (Hu : holds_undefined (with_bounds b (state (this s))) = false)
    by (vm_compute; reflexivity).
  split; [by repeat split|].
  destruct (restart_restores_geometry s 1%nat (normal_view b) b sample_options
              Hw Hv eq_refl eq_refl eq_refl Hu) as (_ & t & Hc & Hx & Hy & Hwd & Hh).
  exists t. split; [exact Hc|]. split; [exact Hx|]. split; [exact Hy|].
  split; [exact Hwd|exact Hh].
Defined.

(** ** Running an operation twice *)

Lemma with_bounds_twice (b : Rectangle) (st : obj) :
  with_bounds b (with_bounds b st) = with_bounds b st.
Proof.
  apply map_eq; intros k. unfold with_bounds.
  rewrite !lookup_insert. repeat case_decide; reflexivity.
Qed.

Lemma union_twice (a b : obj) : a ∪ (a ∪ b) = a ∪ b.
Proof. by rewrite (assoc_L (∪)), (idemp_L (∪)). Qed.

(** What the handler does to the store: nothing, or it writes the state
    record it ends with. *)
Lemma changeHandler_store (s : Sys) :
  store (world (exec changeHandler s)) = store (world s)
  \/ store (world (exec changeHandler s))
     = state (this (exec changeHandler s)) ∪ store (world s).
Proof.
  handler_cases s; try (left; reflexivity);
    right; cbn [store add_log set_store]; apply assign1_union.
Qed.

(** The handler in one step: the state record becomes the captured one,
    and with [dev], when the queries returned and the store takes the
    record, the record is written. *)
Lemma changeHandler_exec (s : Sys) :
  exec changeHandler s =
  {| this := set_state (captured s) (this s);
     world := if answers s && dev (opts (this s)) && negb (holds_undefined (captured s))
              then add_log (EStoreSet (captured s))
                     (set_store (captured s ∪ store (world s)) (world s))
              else world s |}.
Proof.
  destruct s as [[o st wn] wd].
  destruct wn as [w|]; [|reflexivity].
  destruct (views wd !! w) as [[[b|?] [[|]|?] [[|]|?]]|] eqn:Hv;
    destruct (dev o) eqn:Hd;
    unfold_handler; reduce_handler Hv Hd;
    unfold captured, seen, answers, with_bounds;
    cbn [this world win opts state views set_state andb negb];
    rewrite ?Hv, ?Hd;
    cbn [v_bounds v_minimized v_fullScreen andb negb];
    rewrite ?clamp_max, ?assign1_union;
    split_store; reflexivity.
Qed.

Lemma changeHandler_again (s s1 : Sys) :
  s1 = exec changeHandler s ->
  this (exec changeHandler s1) = this s1
  /\ store (world (exec changeHandler s1)) = store (world s1).
Proof.
  intros ->. rewrite (changeHandler_exec (exec changeHandler s)).
  rewrite (changeHandler_exec s).
  set (s1 := {| this := set_state (captured s) (this s); world := _ |}).
  assert (Hseen : seen s1 = seen s /\ answers s1 = answers s).
  { subst s1.
    generalize (answers s && dev (opts (this s)) && negb (holds_undefined (captured s))).
    intros [|]; destruct s as [[] []]; split; reflexivity. }
  destruct Hseen as [Hseen Hans].
  assert (Hcap : captured s1 = captured s).
  { unfold captured at 1. rewrite Hseen. subst s1. cbn [this state set_state].
    unfold captured. destruct (seen s); [apply with_bounds_twice|reflexivity]. }
  rewrite Hcap, Hans. cbn [this world].
  split; [by subst s1; destruct s as [[] ?]|].
  subst s1. cbn [this world opts set_state].
  destruct (answers s && dev (opts (this s)) && negb (holds_undefined (captured s)));
    [|reflexivity].
  cbn [store add_log set_store]. apply union_twice.
Qed.

(** The handler is idempotent: run again at once, on the window as it
    was, it changes neither the instance nor the contents of the store.
    Collapsing several change notifications into one run loses nothing. *)
Theorem changeHandler_twice (s : Sys) :
  outcome (changeHandler ;; changeHandler) s = Ok tt
  /\ this (exec (changeHandler ;; changeHandler) s) = this (exec changeHandler s)
  /\ store (world (exec (changeHandler ;; changeHandler) s))
     = store (world (exec changeHandler s)).
Proof.
  rewrite (outcome_seq _ _ s), (exec_seq _ _ s) by apply changeHandler_ok.
  split; [apply changeHandler_ok|].
  apply (changeHandler_again s). reflexivity.
Qed.

(** The close handler may run any number of times (the window emits close
    and then closed, and each event calls it): the second run ends as the
    first did, and leaves the instance and the contents of the store as
    the first left them. The first run unbinds the instance; the store
    then holds the state record written over what it held, unless the
    record holds an undefined value, in which case the store refuses it,
    the handler throws and the store is as it was. *)
Theorem closeHandler_twice (s : Sys) :
  outcome closeHandler (exec closeHandler s) = outcome closeHandler s
  /\ this (exec closeHandler (exec closeHandler s)) = this (exec closeHandler s)
  /\ store (world (exec closeHandler (exec closeHandler s)))
     = store (world (exec closeHandler s))
  /\ outcome closeHandler s
     = (if holds_undefined (state (this s)) then Throw type_error else Ok tt)
  /\ store (world (exec closeHandler s))
     = (if holds_undefined (state (this s)) then store (world s)
        else state (this s) ∪ store (world s))
  /\ win (this (exec closeHandler s)) = None.
Proof.
  destruct (closeHandler_run s) as (Ho & Hthis & Hst & _).
  destruct (closeHandler_run (exec closeHandler s)) as (Ho' & Hthis' & Hst' & _).
  assert (Hs : state (this (exec closeHandler s)) = state (this s))
    by (rewrite Hthis; by destruct (this s)).
  rewrite Hs in Ho', Hst'.
  split; [by rewrite Ho', Ho|].
  split; [rewrite Hthis', Hthis; by destruct (this s)|].
  split; [rewrite Hst', Hst; destruct (holds_undefined (state (this s)));
          [reflexivity|apply union_twice]|].
  split; [exact Ho|]. split; [exact Hst|]. rewrite Hthis. by destruct (this s).
Qed.

(** [unmanage] is idempotent: a second call finds no window bound and
    changes nothing. *)
Theorem unmanage_twice (s : Sys) : (unmanage ;; unmanage) s = unmanage s.
Proof.
  destruct (unmanage_ok s) as [Ho Hw].
  rewrite (seq_run _ _ s) by exact Ho.
  rewrite (unmanage_unbound _ Hw).
  unfold outcome, exec in *. destruct (unmanage s) as [r s']. cbn in *. by subst.
Qed.

(** [reset] does not outlive the window: the close handler writes the
    state record back, so after [reset] and a close the store holds
    exactly the state record the instance had. The exception is a state
    record that holds an undefined value: the store refuses it, the close
    handler throws and the store stays empty. *)
Theorem reset_then_close_restores (s : Sys) :
  outcome (reset ;; closeHandler) s
  = (if holds_undefined (state (this s)) then Throw type_error else Ok tt)
  /\ store (world (exec (reset ;; closeHandler) s))
     = (if holds_undefined (state (this s)) then ∅ else state (this s)).
Proof.
  rewrite (outcome_seq _ _ s), (exec_seq _ _ s) by reflexivity.
  destruct (closeHandler_run (exec reset s)) as (Ho & _ & Hst & _).
  assert (Hr : state (this (exec reset s)) = state (this s)
               /\ store (world (exec reset s)) = ∅) by (by destruct s as [t []]).
  destruct Hr as [Hr1 Hr2]. rewrite Hr1 in Ho, Hst. rewrite Hr2 in Hst.
  split; [exact Ho|].
  rewrite Hst. destruct (holds_undefined (state (this s))); [reflexivity|].
  by rewrite (right_id_L ∅ (∪)).
Qed.

Lemma holds_undefined_frame (a b : bool) (st : obj) :
  holds_undefined (<["frame" := VBool a]> st) = holds_undefined (<["frame" := VBool b]> st).
Proof.
  unfold holds_undefined. apply bool_decide_ext.
  rewrite !map_Exists_lookup.
  split; intros (k & v & Hk & ->); exists k, VUndefined;
    (split; [|reflexivity]);
    (destruct (decide (k = "frame")) as [->|Hne];
     [ by rewrite lookup_insert_eq in Hk
     | by rewrite lookup_insert_ne in Hk |- * ]).
Qed.

(** Of two [changeFrame] calls, made one after the other whatever the
    first answered, the last one wins: the instance and the store end as
    if only the last had been made, and the other keys of the state
    record are not touched. The state record gets the frame in any case;
    the store gets it unless the record holds an undefined value, in
    which case the store refuses the record and keeps what it had. *)
Theorem changeFrame_last_wins (a b : bool) (s : Sys) :
  this (exec (changeFrame b) (exec (changeFrame a) s)) = this (exec (changeFrame b) s)
  /\ store (world (exec (changeFrame b) (exec (changeFrame a) s)))
     = store (world (exec (changeFrame b) s))
  /\ frame (this (exec (changeFrame b) s)) = VBool b
  /\ store (world (exec (changeFrame b) s)) !! "frame"
     = (if holds_undefined (<["frame" := VBool b]> (state (this s)))
        then store (world s) !! "frame" else Some (VBool b))
  /\ (width (this (exec (changeFrame b) s)), height (this (exec (changeFrame b) s)),
      x (this (exec (changeFrame b) s)), y (this (exec (changeFrame b) s)))
     = (width (this s), height (this s), x (this s), y (this s)).
Proof.
  unfold exec. rewrite !changeFrame_run.
  cbv zeta.
  rewrite (holds_undefined_frame a b (state (this s))).
  destruct (holds_undefined (<["frame" := VBool b]> (state (this s)))) eqn:Hu;
    cbn [snd this world state store set_state add_log set_store];
    rewrite insert_insert_eq, ?Hu;
    cbn [snd this world state store set_state add_log set_store].
  all: split; [by destruct (this s)|].
  all: split;
    [ first
        [ reflexivity
        | apply map_eq; intros k;
          rewrite !lookup_union_match, !lookup_insert;
          case_decide; [reflexivity|]; by destruct (state (this s) !! k) ] |].
  all: unfold frame, width, height, x, y, prop; cbn [state set_state];
    rewrite ?lookup_union_match, ?lookup_insert_eq;
    rewrite !lookup_insert_ne by done; repeat split; reflexivity.
Qed.


(** ** Properties kept by everything that can happen *)

Section Keeps.
Variable P : Sys -> Prop.

Lemma keeps_ret {A} (a : A) : keeps P (ret a).
Proof. by intros s. Qed.

Lemma keeps_gets {A} (f : Sys -> A) : keeps P (gets f).
Proof. by intros s. Qed.

Lemma keeps_query {A} (f : WinView -> res A) (w : nat) : keeps P (query f w).
Proof. intros s H. unfold exec, query. by destruct (views (world s) !! w). Qed.

Lemma keeps_bind {A B} (m : M A) (k : A -> M B) :
  keeps P m -> (forall a, keeps P (k a)) -> keeps P (bind m k).
Proof.
  intros Hm Hk s H. specialize (Hm s H). unfold exec, bind in *.
  destruct (m s) as [[a|e] s']; [by apply Hk|exact Hm].
Qed.

Lemma keeps_try_catch {A} (m : M A) (h : string -> M A) :
  keeps P m -> (forall e, keeps P (h e)) -> keeps P (try_catch m h).
Proof.
  intros Hm Hh s H. specialize (Hm s H). unfold exec, try_catch in *.
  destruct (m s) as [[a|e] s']; [exact Hm|by apply Hh].
Qed.

Lemma keeps_for_each {A} (f : A -> M unit) (l : list A) :
  (forall a, keeps P (f a)) -> keeps P (for_each f l).
Proof.
  intros Hf. induction l as [|a l IH]; [apply keeps_ret|].
  cbn [for_each]. apply keeps_bind; [apply Hf|]. by intros _.
Qed.

(** What the primitives must keep. *)
Hypothesis P_world : forall f, registry_preserving f -> keeps P (modify_world f).
Hypothesis P_setSize : forall w a b, keeps P (setSize w a b).
Hypothesis P_x : forall n, 0 <= n -> keeps P (assign_state "x" (VNum n)).
Hypothesis P_y : forall n, 0 <= n -> keeps P (assign_state "y" (VNum n)).
Hypothesis P_width : forall n, keeps P (assign_state "width" (VNum n)).
Hypothesis P_height : forall n, keeps P (assign_state "height" (VNum n)).
Hypothesis P_frame : forall b, keeps P (assign_state "frame" (VBool b)).
Hypothesis P_manage : forall w, keeps P (manage w).
Hypothesis P_unmanage : keeps P unmanage.

Ltac keeps_steps :=
  repeat match goal with
         | |- keeps _ (bind _ _) => apply keeps_bind; [|intros ?]
         | |- keeps _ (ret _) => apply keeps_ret
         | |- keeps _ (gets _) => apply keeps_gets
         | |- keeps _ (query _ _) => apply keeps_query
         | |- keeps _ (try_catch _ _) => apply keeps_try_catch; [|intros ?]
         | |- keeps _ (for_each _ _) => apply keeps_for_each; intros ?
         | |- keeps _ (match ?x with _ => _ end) => destruct x
         | |- keeps _ (modify_world _) => apply P_world; intros []; by split
         end.

Lemma keeps_store_set (o : obj) : keeps P (store_set o).
Proof.
  intros s H. unfold exec, store_set.
  destruct (holds_undefined o); [exact H|].
  apply (P_world (fun w => add_log (EStoreSet o) (set_store (assign1 (store w) o) w)));
    [intros []; by split|exact H].
Qed.

Lemma keeps_saveState : keeps P saveState.
Proof.
  unfold saveState. apply keeps_bind; [apply keeps_gets|]. intros st.
  apply keeps_store_set.
Qed.

Lemma keeps_changeFrame (b : bool) : keeps P (changeFrame b).
Proof.
  unfold changeFrame. apply keeps_bind; [apply P_frame|]. intros _.
  apply keeps_saveState.
Qed.

Lemma keeps_reset : keeps P reset.
Proof. unfold reset, store_clear. keeps_steps. Qed.

Lemma keeps_getState : keeps P getState.
Proof. unfold getState, store_read. keeps_steps. Qed.

Lemma keeps_isNormal : keeps P isNormal.
Proof. unfold isNormal, isMinimized, isFullScreen. keeps_steps. Qed.

Lemma keeps_changeHandler : keeps P changeHandler.
Proof.
  unfold changeHandler, changeHandler_body, getBounds.
  apply keeps_try_catch; [|intros; apply keeps_ret].
  apply keeps_bind; [apply keeps_gets|]. intros [w|]; [|apply keeps_ret].
  apply keeps_bind; [apply keeps_query|]. intros b.
  apply keeps_bind; [apply keeps_isNormal|]. intros normal.
  apply keeps_bind.
  - destruct normal; [|apply keeps_ret].
    apply keeps_bind; [apply P_x; case_bool_decide; lia|]. intros _.
    apply keeps_bind; [apply P_y; case_bool_decide; lia|]. intros _.
    apply keeps_bind; [apply P_width|]. intros _. apply P_height.
  - intros _. apply keeps_bind; [apply keeps_gets|].
    intros [|]; [apply keeps_saveState|apply keeps_ret].
Qed.

Lemma keeps_closeHandler : keeps P closeHandler.
Proof.
  unfold closeHandler. apply keeps_bind; [apply P_unmanage|]. intros _.
  apply keeps_saveState.
Qed.

Lemma keeps_resetWindowToDefault : keeps P resetWindowToDefault.
Proof.
  unfold resetWindowToDefault.
  apply keeps_bind; [apply keeps_gets|]. intros w.
  apply keeps_bind; [apply keeps_gets|]. intros o.
  apply keeps_bind; [|intros _; apply keeps_reset].
  destruct w; [apply P_setSize|apply keeps_ret].
Qed.

Lemma keeps_call_arrow (a : Arrow) : keeps P (call_arrow a).
Proof. destruct a; [apply keeps_changeHandler|apply keeps_closeHandler]. Qed.

Lemma keeps_call_fn (f : Fn) : keeps P (call_fn f).
Proof.
  destruct f; cbn [call_fn]; [apply keeps_call_arrow|].
  unfold call_debounced. keeps_steps.
Qed.

Lemma keeps_emit (w : nat) (ev : string) : keeps P (emit w ev).
Proof.
  unfold emit. apply keeps_bind; [apply keeps_gets|]. intros ls.
  apply keeps_for_each. intros r.
  apply keeps_bind; [|intros _; apply keeps_call_fn].
  keeps_steps.
Qed.

Lemma keeps_fire (t : Fn * nat) : keeps P (fire t).
Proof.
  unfold fire. apply keeps_bind; [keeps_steps|]. intros _.
  destruct (fst t); apply keeps_call_arrow.
Qed.

Lemma keeps_tick : keeps P tick.
Proof.
  unfold tick.
  apply keeps_bind; [keeps_steps|]. intros _.
  apply keeps_bind; [apply keeps_gets|]. intros t.
  apply keeps_bind; [apply keeps_gets|]. intros due.
  apply keeps_bind; [keeps_steps|]. intros _.
  apply keeps_for_each. apply keeps_fire.
Qed.

Lemma keeps_advance (n : nat) : keeps P (advance n).
Proof.
  induction n as [|n IH]; [apply keeps_ret|].
  cbn [advance]. apply keeps_bind; [apply keeps_tick|]. by intros _.
Qed.

Lemma keeps_run_action (a : Action) : keeps P (run_action a).
Proof.
  destruct a; cbn [run_action].
  - apply keeps_bind; [apply keeps_getState|]. intros _. apply keeps_ret.
  - apply keeps_saveState.
  - apply keeps_changeFrame.
  - apply keeps_reset.
  - apply P_manage.
  - apply P_unmanage.
  - apply keeps_changeHandler.
  - apply keeps_closeHandler.
  - apply keeps_resetWindowToDefault.
  - apply keeps_changeFrame.
  - apply keeps_bind; [apply keeps_gets|]. intros _. apply keeps_ret.
  - apply keeps_emit.
  - apply keeps_advance.
  - unfold set_view. keeps_steps.
  - unfold destroy. keeps_steps.
Qed.

Lemma keeps_run_actions (l : list Action) (s : Sys) :
  P s -> P (run_actions l s).
Proof.
  revert s. induction l as [|a l IH]; intros s H; [exact H|].
  cbn [run_actions foldl]. apply IH. by apply keeps_run_action.
Qed.
End Keeps.

(** *** Instances *)

Lemma unmanage_this (s : Sys) : this (exec unmanage s) = set_win None (this s).
Proof.
  destruct s as [[o st wn] [sto vs ls ms nf nw tm lg]].
  unfold_binder. by destruct wn.
Qed.

Lemma setSize_this (w : nat) (a b : option Z) (s : Sys) :
  this (exec (setSize w a b) s) = this s.
Proof.
  unfold exec, setSize.
  destruct (views (world s) !! w) as [v|]; [|reflexivity].
  by destruct (v_bounds v), a, b.
Qed.

(** The options and the keys of the state record, along any run. *)
Lemma instance_frame (l : list Action) (s : Sys) :
  opts (this (run_actions l s)) = opts (this s)
  /\ dom (state (this s)) ⊆ dom (state (this (run_actions l s))).
Proof.
  pose (P := fun s' : Sys =>
               opts (this s') = opts (this s)
               /\ dom (state (this s)) ⊆ dom (state (this s'))).
  assert (Hassign : forall k v, keeps P (assign_state k v)).
  { intros k v s' [H1 H2]. split; [exact H1|].
    cbn [exec assign_state modify_this snd this state set_state].
    etrans; [exact H2|]. apply dom_insert_subseteq. }
  change (P (run_actions l s)).
  apply keeps_run_actions.
  - intros f _ s' H. exact H.
  - intros w a b s' H. unfold P. by rewrite setSize_this.
  - intros; apply Hassign.
  - intros; apply Hassign.
  - intros; apply Hassign.
  - intros; apply Hassign.
  - intros; apply Hassign.
  - intros w s' H. unfold P, exec. by rewrite manage_eq.
  - intros s' H. unfold P. by rewrite unmanage_this.
  - by split.
Qed.

(** Whatever is called and whatever the window and the clock do, the
    options of an instance stay as the constructor resolved them, and no
    key ever leaves the state record. *)
Theorem options_fixed_keys_kept (l : list Action) (s : Sys) :
  opts (this (run_actions l s)) = opts (this s)
  /\ dom (state (this s)) ⊆ dom (state (this (run_actions l s))).
Proof. apply instance_frame. Qed.

(** An instance made by the constructor has a width and a height in its
    state record at all times, whatever the store held and whatever
    happens afterwards. *)
Theorem width_height_always_present (options : Options) (w : World) (l : list Action) :
  let s := run_actions l (new_WinState options w) in
  opts (this s) = resolve options
  /\ is_Some (state (this s) !! "width")
  /\ is_Some (state (this s) !! "height").
Proof.
  intros s. subst s.
  destruct (instance_frame l (new_WinState options w)) as [Ho Hd].
  assert (Hnew : this (new_WinState options w)
                 = {| opts := resolve options;
                      state := store w ∪ defaults_record (resolve options);
                      win := None |}).
  { unfold new_WinState. by rewrite constructor_run. }
  rewrite Hnew in Ho, Hd. cbn [opts state] in Ho, Hd.
  split; [exact Ho|].
  assert (Hk : forall k, is_Some (defaults_record (resolve options) !! k) ->
                         is_Some (state (this (run_actions l (new_WinState options w))) !! k)).
  { intros k Hk. apply elem_of_dom, Hd, elem_of_dom.
    rewrite lookup_union_match. by destruct (store w !! k). }
  split; apply Hk; unfold defaults_record;
    destruct (storeFrameOption (resolve options)); by eexists.
Qed.

Lemma nonneg_at_insert_ne (k k' : string) (v : value) (st : obj) :
  k' <> k -> nonneg_at k (<[k' := v]> st) = nonneg_at k st.
Proof. intros H. unfold nonneg_at. by rewrite lookup_insert_ne. Qed.

Lemma nonneg_at_insert (k : string) (n : Z) (st : obj) :
  0 <= n -> nonneg_at k (<[k := VNum n]> st) = true.
Proof.
  intros H. unfold nonneg_at. rewrite lookup_insert_eq. by apply bool_decide_eq_true_2.
Qed.

(** The off-screen protection is an invariant: if x and y of the state
    record are absent or not negative, they stay so whatever happens. *)
Theorem xy_never_negative (l : list Action) (s : Sys) :
  xy_ok (state (this s)) = true ->
  xy_ok (state (this (run_actions l s))) = true.
Proof.
  pose (P := fun s' : Sys => xy_ok (state (this s')) = true).
  assert (Hother : forall k v, k <> "x" -> k <> "y" -> keeps P (assign_state k v)).
  { intros k v Hx Hy s' H. unfold P, xy_ok in *.
    cbn [exec assign_state modify_this snd this state set_state].
    by rewrite !nonneg_at_insert_ne. }
  intros H0. change (P (run_actions l s)).
  apply keeps_run_actions; [| | | | by (intros; apply Hother) ..| | |exact H0].
  - intros f _ s' H. exact H.
  - intros w a b s' H. unfold P. by rewrite setSize_this.
  - intros n Hn s' H. unfold P, xy_ok in *.
    cbn [exec assign_state modify_this snd this state set_state].
    apply andb_true_iff in H as [_ Hy].
    by rewrite nonneg_at_insert, nonneg_at_insert_ne.
  - intros n Hn s' H. unfold P, xy_ok in *.
    cbn [exec assign_state modify_this snd this state set_state].
    apply andb_true_iff in H as [Hx _].
    by rewrite nonneg_at_insert, nonneg_at_insert_ne, Hx.
  - intros w s' H. unfold P, exec. by rewrite manage_eq.
  - intros s' H. unfold P. by rewrite unmanage_this.
Qed.

(** The property above at the sample instance. *)
Lemma xy_never_negative_witness :
  let l := [ AManage 1; AEmit 1 "move"; AAdvance 500; AEmit 1 "close" ] in
  xy_ok (state (this sample_sys)) = true
  /\ xy_ok (state (this (run_actions l sample_sys))) = true
  /\ x (this (run_actions l sample_sys)) = VNum 0.
Proof.
  intros l. split; [reflexivity|].
  split; [exact (xy_never_negative l sample_sys eq_refl)|].
  vm_compute. reflexivity.
Defined.

(** ** Listeners are never removed *)

Lemma remove_first_none {A} (p : A -> bool) (l : list A) :
  Forall (fun a => p a = false) l -> remove_first p l = l.
Proof.
  induction 1 as [|a l Ha _ IH]; [reflexivity|].
  cbn [remove_first]. by rewrite Ha, IH.
Qed.

(** [removeListener] with a function object that was never registered. *)
Lemma removal_of_stranger (l : list Registration) (w : nat) (ev : string) (f : Fn) :
  Forall (fun r => fn_id (reg_fn r) <> fn_id f) l ->
  reverse (remove_first (same_listener w ev f) (reverse l)) = l.
Proof.
  intros H. rewrite remove_first_none; [apply reverse_involutive|].
  apply Forall_reverse. eapply Forall_impl; [exact H|].
  intros r Hr. unfold same_listener.
  rewrite (bool_decide_eq_false_2 _ Hr). apply andb_false_r.
Qed.

Lemma unmanage_registry (s : Sys) :
  listeners_older (world s) ->
  listeners (world (exec unmanage s)) = listeners (world s)
  /\ (next_fn (world s) <= next_fn (world (exec unmanage s)))%nat.
Proof.
  destruct s as [[o st wn] [sto vs ls ms nf nw tm lg]].
  unfold listeners_older. cbn [world listeners next_fn]. intros H.
  unfold_binder. destruct wn as [w|]; [|by split].
  cbn [world listeners next_fn set_listeners set_next_fn].
  rewrite !(removal_of_stranger ls)
    by (eapply Forall_impl; [exact H|]; intros r Hr; cbn in Hr |- *; lia).
  cbn. split; [reflexivity|lia].
Qed.

(** The registry along any run: listeners stay older than the function
    counter, and the ones that were there stay, in their order. *)
Lemma registry_frame (l : list Action) (s : Sys) :
  listeners_older (world s) ->
  listeners_older (world (run_actions l s))
  /\ listeners (world s) `prefix_of` listeners (world (run_actions l s)).
Proof.
  intros H0.
  pose (P := fun s' : Sys =>
               listeners_older (world s')
               /\ listeners (world s) `prefix_of` listeners (world s')).
  assert (Hassign : forall k v, keeps P (assign_state k v)) by (by intros k v s' H).
  change (P (run_actions l s)).
  apply keeps_run_actions.
  - intros f Hf s' [H1 H2]. unfold P, listeners_older in *.
    cbn [exec modify_world snd world].
    destruct (Hf (world s')) as [-> ->]. by split.
  - intros w a b s' H. unfold exec, setSize.
    destruct (views (world s') !! w) as [v|]; [|exact H].
    destruct (v_bounds v), a, b; try exact H; destruct s' as [t []]; exact H.
  - intros; apply Hassign.
  - intros; apply Hassign.
  - intros; apply Hassign.
  - intros; apply Hassign.
  - intros; apply Hassign.
  - intros w s' [H1 H2]. unfold P, exec. rewrite manage_eq.
    destruct s' as [t [sto vs ls ms nf nw tm lg]]. unfold listeners_older in *.
    cbn [snd world this listeners next_fn] in *.
    destruct (addMethods (opts t));
      cbn [listeners next_fn set_methods set_listeners set_next_fn];
      (split;
       [ apply Forall_app; split;
         [ eapply Forall_impl; [exact H1|]; intros r Hr; cbn in Hr |- *; lia
         | repeat constructor; cbn [reg_fn fn_id]; lia ]
       | by apply prefix_app_r ]).
  - intros s' [H1 H2]. unfold P.
    destruct (unmanage_registry s' H1) as [He Hn].
    unfold listeners_older in *. rewrite He. split; [|exact H2].
    eapply Forall_impl; [exact H1|]. intros r Hr. cbn in Hr |- *. lia.
  - by split.
Qed.

(** No call and no event ever takes a listener off a window. [unmanage]
    hands [removeListener] function objects it has just made, so in a
    system whose listeners are older function objects, as they are in
    every system that started without listeners, [unmanage] leaves the
    list of listeners as it is, and after any run the listeners that were
    registered are still registered, in their order. *)
Theorem listeners_never_removed (l : list Action) (s : Sys) :
  listeners_older (world s) ->
  listeners (world (exec unmanage s)) = listeners (world s)
  /\ listeners_older (world (run_actions l s))
  /\ listeners (world s) `prefix_of` listeners (world (run_actions l s)).
Proof.
  intros H. split; [apply (unmanage_registry s H)|]. by apply registry_frame.
Qed.

(** The property above at the sample instance. *)
Lemma listeners_never_removed_witness :
  let s := exec (manage 1) sample_sys in
  let l := [ AUnmanage; AEmit 1 "close"; AManage 2; AUnmanage ] in
  listeners_older (world s)
  /\ length (listeners (world s)) = 5%nat
  /\ listeners (world (exec unmanage s)) = listeners (world s)
  /\ listeners (world s) `prefix_of` listeners (world (run_actions l s)).
Proof.
  intros s l.
  assert (H : listeners_older (world s)).
  { unfold listeners_older. vm_compute. repeat constructor. }
  destruct (listeners_never_removed l s H) as (Hu & _ & Hp).
  split; [exact H|]. split; [reflexivity|]. by split.
Defined.

(** ** The binding and the listeners *)








(** ** What manage subscribes *)

(** [manage(w)] binds the instance to w and appends exactly five
    listeners to those of w: maximize, resize and move, each through a
    debounced function of its own with the configured delay, then close
    and closed through two plain functions; all five are new function
    objects. It touches neither the state record nor the store, and sets
    no timer. *)
Theorem manage_subscribes (w : nat) (s : Sys) :
  let n := next_fn (world s) in
  let d := debounce (opts (this s)) in
  let s' := exec (manage w) s in
  outcome (manage w) s = Ok tt
  /\ this s' = set_win (Some w) (this s)
  /\ listeners (world s') =
     (listeners (world s) ++
        [ mkReg w "maximize" (Debounced n CallChangeHandler d);
          mkReg w "resize" (Debounced (S n) CallChangeHandler d);
          mkReg w "move" (Debounced (S (S n)) CallChangeHandler d);
          mkReg w "close" (Plain (S (S (S n))) CallCloseHandler);
          mkReg w "closed" (Plain (S (S (S (S n)))) CallCloseHandler) ])%list
  /\ store (world s') = store (world s)
  /\ timers (world s') = timers (world s)
  /\ methods (world s') =
     (if addMethods (opts (this s)) then methods (world s) ++ [w] else methods (world s))%list.
Proof.
  intros n d s'. subst n d s'. unfold outcome, exec. rewrite manage_eq.
  destruct s as [t [sto vs ls ms nf nw tm lg]].
  cbn [fst snd this world].
  destruct (addMethods (opts t)); repeat split; reflexivity.
Qed.

(** ** The close event *)

Lemma managed_listeners_of (w : nat) (ev : string) (s : Sys) :
  listeners_of w ev (world s) = [] ->
  listeners_of w ev (world (exec (manage w) s)) =
  filter (fun r => reg_win r = w /\ reg_event r = ev)
    [ mkReg w "maximize" (Debounced (next_fn (world s)) CallChangeHandler
                            (debounce (opts (this s))));
      mkReg w "resize" (Debounced (S (next_fn (world s))) CallChangeHandler
                          (debounce (opts (this s))));
      mkReg w "move" (Debounced (S (S (next_fn (world s)))) CallChangeHandler
                        (debounce (opts (this s))));
      mkReg w "close" (Plain (S (S (S (next_fn (world s))))) CallCloseHandler);
      mkReg w "closed" (Plain (S (S (S (S (next_fn (world s)))))) CallCloseHandler) ].
Proof.
  intros H. unfold exec. rewrite manage_eq.
  destruct s as [t [sto vs ls ms nf nw tm lg]]. unfold listeners_of in *.
  cbn [snd world this listeners next_fn] in *.
  destruct (addMethods (opts t));
    cbn [listeners set_methods set_listeners set_next_fn];
    by rewrite filter_app, H.
Qed.

Lemma listeners_of_managed_close (w : nat) (ev : string) (n d : nat) :
  ev = "close" \/ ev = "closed" ->
  exists i : nat,
    filter (fun r => reg_win r = w /\ reg_event r = ev)
      [ mkReg w "maximize" (Debounced n CallChangeHandler d);
        mkReg w "resize" (Debounced (S n) CallChangeHandler d);
        mkReg w "move" (Debounced (S (S n)) CallChangeHandler d);
        mkReg w "close" (Plain (S (S (S n))) CallCloseHandler);
        mkReg w "closed" (Plain (S (S (S (S n)))) CallCloseHandler) ]
    = [mkReg w ev (Plain i CallCloseHandler)].
Proof.
  intros [-> | ->]; eexists;
    rewrite !filter_cons, filter_nil; cbn [reg_win reg_event];
    repeat match goal with
           | |- context [decide ?P] =>
               let Hc := fresh "Hc" in
               destruct (decide P) as [[_ Hc]|Hc];
               [ try discriminate Hc | try (exfalso; apply Hc; split; reflexivity) ]
           end;
    reflexivity.
Qed.

Lemma closeHandler_log (s : Sys) :
  log (world (exec closeHandler s)) =
  if holds_undefined (state (this s)) then log (world s)
  else (log (world s) ++ [EStoreSet (state (this s))])%list.
Proof.
  destruct s as [[o st wn] [sto vs ls ms nf nw tm lg]].
  unfold_binder.
  destruct wn; cbn [this world state set_win log set_listeners set_next_fn];
    by destruct (holds_undefined st).
Qed.

(** The event reaches the one listener registered for it, a plain
    function calling the close handler. *)
Lemma emit_close_one (s : Sys) (w : nat) (ev : string) (i : nat) :
  listeners_of w ev (world s) = [mkReg w ev (Plain i CallCloseHandler)] ->
  let s1 := {| this := this s; world := add_log (EListener w ev i) (world s) |} in
  exec (emit w ev) s = exec closeHandler s1
  /\ outcome (emit w ev) s = outcome closeHandler s1.
Proof.
  intros H s1.
  assert (He : emit w ev s
               = match closeHandler s1 with
                 | (Ok _, s') => (Ok tt, s')
                 | (Throw e, s') => (Throw e, s')
                 end).
  { unfold emit, bind at 1, gets. rewrite H.
    cbn [for_each reg_fn fn_id call_fn call_arrow].
    unfold bind at 1 2, modify_world, ret. fold s1.
    unfold bind. by destruct (closeHandler s1) as [[[]|e] s']. }
  unfold exec, outcome. rewrite He.
  by destruct (closeHandler s1) as [[[]|e] s'].
Qed.

Lemma store_sets_app (l k : list Effect) :
  store_sets (l ++ k) = (store_sets l ++ store_sets k)%list.
Proof. apply omap_app. Qed.

(** On a window managed once, a close (or closed) event unbinds the
    instance and leaves the state record as it is. When no value of the
    state record is undefined the event returns and the record is written
    over the store, in one write; otherwise the store refuses the record,
    the error escapes the event, and the store has not been written. *)
Theorem close_event_unbinds_and_saves (s : Sys) (w : nat) (ev : string) :
  ev = "close" \/ ev = "closed" ->
  listeners_of w ev (world s) = [] ->
  let s' := exec (manage w ;; emit w ev) s in
  let refused := holds_undefined (state (this s)) in
  outcome (manage w ;; emit w ev) s = (if refused then Throw type_error else Ok tt)
  /\ win (this s') = None
  /\ state (this s') = state (this s)
  /\ store (world s') = (if refused then store (world s) else state (this s) ∪ store (world s))
  /\ length (store_sets (log (world s')))
     = (if refused then length (store_sets (log (world s)))
        else S (length (store_sets (log (world s))))).
Proof.
  intros Hev Hl s' refused. subst s' refused.
  destruct (manage_ok w s) as [Hm _].
  rewrite (outcome_seq _ _ s), (exec_seq _ _ s) by exact Hm.
  destruct (listeners_of_managed_close w ev (next_fn (world s))
              (debounce (opts (this s))) Hev) as [i Hi].
  pose proof (managed_listeners_of w ev s Hl) as Hl1. rewrite Hi in Hl1.
  set (s1 := {| this := this (exec (manage w) s);
                world := add_log (EListener w ev i) (world (exec (manage w) s)) |}).
  destruct (emit_close_one _ w ev i Hl1) as [He Ho]. fold s1 in He, Ho.
  rewrite He, Ho.
  destruct (closeHandler_run s1) as (Hout & Hthis & Hst & _).
  pose proof (closeHandler_log s1) as Hlog.
  assert (H1 : this s1 = set_win (Some w) (this s)
               /\ store (world s1) = store (world s)
               /\ log (world s1) = (log (world s) ++ [EListener w ev i])%list).
  { subst s1. unfold exec. rewrite manage_eq.
    destruct s as [t [sto vs ls ms nf nw tm lg]]. cbn [snd this world].
    by destruct (addMethods (opts t)). }
  destruct H1 as (Ht1 & Hs1 & Hl1').
  assert (Hs : state (this s1) = state (this s)) by (rewrite Ht1; by destruct (this s)).
  rewrite Hout, Hthis, Hst, Hlog, Ht1, Hs1, Hl1'.
  replace (state (set_win (Some w) (this s))) with (state (this s)) by (by destruct (this s)).
  split; [reflexivity|].
  split; [by destruct (this s)|].
  split; [by destruct (this s)|].
  split; [reflexivity|].
  destruct (holds_undefined (state (this s)));
    rewrite !store_sets_app, !length_app; cbn; lia.
Qed.

(** The property above at the sample instance. *)
Lemma close_event_unbinds_and_saves_witness :
  let s' := exec (manage 1 ;; emit 1 "close") sample_sys in
  listeners_of 1 "close" (world sample_sys) = []
  /\ win (this s') = None
  /\ store (world s') = state (this sample_sys) ∪ store (world sample_sys)
  /\ length (store_sets (log (world s'))) = 1%nat.
Proof.
  intros s'.
  destruct (close_event_unbinds_and_saves sample_sys 1 "close" (or_introl eq_refl) eq_refl)
    as (_ & Hw & _ & Hst & Hlen).
  split; [reflexivity|]. split; [exact Hw|]. split; [exact Hst|]. exact Hlen.
Defined.

(** ** Timers that fire after the window has closed *)

Lemma fire_unbound (s : Sys) (e : Fn * nat) :
  win (this s) = None -> fn_body (fst e) = CallChangeHandler ->
  fire e s =
  (Ok tt, {| this := this s; world := add_log (ETimer (fn_id (fst e))) (world s) |}).
Proof.
  intros Hw Hb. unfold fire, bind, modify_world.
  assert (Hc : (match fst e with
                | Plain _ a => call_arrow a
                | Debounced _ a _ => call_arrow a
                end) = changeHandler).
  { destruct (fst e); cbn in Hb; by subst. }
  rewrite Hc. by rewrite changeHandler_noop.
Qed.

Lemma for_each_fire_unbound (due : list (Fn * nat)) (s : Sys) :
  win (this s) = None ->
  Forall (fun e => fn_body (fst e) = CallChangeHandler) due ->
  exists wd : World,
    for_each fire due s = (Ok tt, {| this := this s; world := wd |})
    /\ store wd = store (world s)
    /\ timers wd = timers (world s).
Proof.
  intros Hw Hd. revert s Hw.
  induction Hd as [|e due He _ IH]; intros s Hw.
  - exists (world s). by destruct s.
  - cbn [for_each]. unfold bind. rewrite (fire_unbound s e Hw He).
    destruct (IH {| this := this s;
                    world := add_log (ETimer (fn_id (fst e))) (world s) |} Hw)
      as (wd & Hrun & Hst & Htm).
    exists wd. split; [exact Hrun|]. by destruct s as [t []].
Qed.

Lemma Forall_filter_keeps {A} (P : A -> Prop) (Q : A -> Prop)
    `{forall a, Decision (Q a)} (l : list A) :
  Forall P l -> Forall P (filter Q l).
Proof.
  induction 1 as [|a l Ha _ IH]; [constructor|].
  rewrite filter_cons. destruct (decide (Q a)); [by constructor|exact IH].
Qed.

Lemma tick_unbound (s : Sys) :
  win (this s) = None ->
  Forall (fun e => fn_body (fst e) = CallChangeHandler) (timers (world s)) ->
  exists wd : World,
    tick s = (Ok tt, {| this := this s; world := wd |})
    /\ store wd = store (world s)
    /\ Forall (fun e => fn_body (fst e) = CallChangeHandler) (timers wd).
Proof.
  intros Hw Ht. unfold tick, bind at 1 2 3 4, modify_world, gets.
  cbn [this world].
  set (s1 := {| this := this s; world := set_timers _ _ |}).
  destruct (for_each_fire_unbound
              (filter (fun e => (snd e <= now (set_now (S (now (world s))) (world s)))%nat)
                 (timers (set_now (S (now (world s))) (world s)))) s1 Hw)
    as (wd & Hrun & Hst & Htm).
  { apply Forall_filter_keeps. by destruct s as [t []]. }
  exists wd. split; [exact Hrun|].
  rewrite Hst, Htm. subst s1. destruct s as [t [sto vs ls ms nf nw tm lg]].
  cbn [world store timers set_timers set_now] in *.
  split; [reflexivity|]. by apply Forall_filter_keeps.
Qed.

Lemma advance_unbound (k : nat) (s : Sys) :
  win (this s) = None ->
  Forall (fun e => fn_body (fst e) = CallChangeHandler) (timers (world s)) ->
  outcome (advance k) s = Ok tt
  /\ this (exec (advance k) s) = this s
  /\ store (world (exec (advance k) s)) = store (world s).
Proof.
  revert s. induction k as [|k IH]; intros s Hw Ht; [by repeat split|].
  destruct (tick_unbound s Hw Ht) as (wd & Hrun & Hst & Htm).
  cbn [advance]. unfold outcome, exec, bind. rewrite Hrun.
  destruct (IH {| this := this s; world := wd |} Hw Htm) as (Ho & Hthis & Hsto).
  unfold outcome, exec in Ho, Hthis, Hsto.
  split; [exact Ho|]. split; [exact Hthis|]. by rewrite Hsto.
Qed.

(** Once no window is bound, the debounced callbacks still pending fire
    without effect: however much time passes, no error escapes and
    neither the instance nor the contents of the store change. *)
Theorem timers_after_close_do_nothing (k : nat) (s : Sys) :
  win (this s) = None ->
  Forall (fun e => fn_body (fst e) = CallChangeHandler) (timers (world s)) ->
  outcome (advance k) s = Ok tt
  /\ this (exec (advance k) s) = this s
  /\ store (world (exec (advance k) s)) = store (world s).
Proof. apply advance_unbound. Qed.

(** The property above at the sample instance. *)
Lemma timers_after_close_do_nothing_witness :
  let s := exec (manage 1 ;; emit 1 "resize" ;; emit 1 "close") sample_sys in
  (win (this s) = None /\ length (timers (world s)) = 1%nat)
  /\ fire_count (exec (advance 500) s) = 1%nat
  /\ this (exec (advance 500) s) = this s
  /\ store (world (exec (advance 500) s)) = store (world s).
Proof.
  intros s.
  assert (Hw : win (this s) = None) by reflexivity.
  assert (Ht : Forall (fun e => fn_body (fst e) = CallChangeHandler) (timers (world s))).
  { vm_compute. repeat constructor. }
  destruct (timers_after_close_do_nothing 500 s Hw Ht) as (_ & Hthis & Hst).
  split; [by split|]. split; [vm_compute; reflexivity|]. by split.
Defined.


